(** * Seo-Analyzer: correction application, classification and tracking

    A shallow embedding of the TypeScript sources

    - [src/components/CorrrectionDisplay.tsx] (component [GrammarChecker]),
    - [src/components/InputContent.tsx] (component [InputContent]),
    - [src/schema/inputSchema.ts] (the zod schema),
    - the route handler behind [/api/insert-keyword] and
    - the route handler behind [/api/analyze],

    together with the properties the specification states about them.

    Conventions.  A JavaScript string is a sequence of code units; it is
    modelled by [string], whose operations used here (length, substring,
    concatenation) are purely positional.  Numbers that index strings are
    integers and are modelled by [Z].  A React state cell is a record field,
    a state setter is a record update, and an event handler is a function
    from the state before the event to the state after it.  An awaited
    network call is a parameter of the handler: its outcome. *)

From Stdlib Require Import ZArith QArith String Ascii List Lia Bool.
From stdpp Require Import base decidable option list gmap strings pretty.

Local Open Scope Z_scope.

(** ** JavaScript strings *)

Module Js.

(** The code units of a string, first to last. *)
Definition chars (s : string) : list ascii := list_ascii_of_string s.

Definition clamp (len x : Z) : Z := Z.max 0 (Z.min x len).

(** [String.prototype.substring(start, end)]: both indices are clamped to
    [0, length], and swapped when the first is larger.  An omitted [end]
    is the length of the string. *)
Definition substring (s : string) (start : Z) (end_ : option Z) : string :=
  let len := Z.of_nat (String.length s) in
  let intStart := clamp len start in
  let intEnd := match end_ with Some e => clamp len e | None => len end in
  let from := Z.min intStart intEnd in
  let to := Z.max intStart intEnd in
  String.substring (Z.to_nat from) (Z.to_nat (to - from)) s.

(** Template-literal conversion of an integer: its decimal digits, with a
    leading minus sign when negative. *)
Definition toString (n : Z) : string := pretty n.

(** Errors a handler can raise. *)
Inductive Error : Type :=
  | SyntaxError   (* malformed JSON body *)
  | TypeError.    (* property access on null/undefined, call of a non-function *)

End Js.

(** ** An error monad for code that may throw *)

Inductive result (E A : Type) : Type :=
  | Ok (a : A)
  | Err (e : E).
Arguments Ok {E A} a.
Arguments Err {E A} e.

#[global] Instance result_ret {E} : MRet (result E) := fun A a => Ok a.

#[global] Instance result_bind {E} : MBind (result E) := fun A B k r =>
  match r with
  | Ok a => k a
  | Err e => Err e
  end.

(** ** Data model *)

Module Replacement.
Record t : Type := mk { value : string }.
End Replacement.

Module Context.
Record t : Type := mk { text : string }.
End Context.

(** [type Match]: one finding returned by the grammar oracle. *)
Module Match.
Record t : Type := mk {
  message : string;
  shortMessage : string;
  replacements : list Replacement.t;
  offset : Z;
  length : Z;
  context : Context.t
}.
End Match.

(** The key under which a finding is tracked:
    [`${match.offset}-${match.length}-${match.message.substring(0, 20)}`]. *)
Definition matchKey (m : Match.t) : string :=
  Js.toString (Match.offset m) +:+ "-" +:+ Js.toString (Match.length m) +:+ "-"
    +:+ Js.substring (Match.message m) 0 (Some 20).

(** [type LanguageData], [type Corrections], [type ReadabilityResponse]. *)
Module LanguageData.
Record t : Type := mk { name : string; code : string }.
End LanguageData.

Module Corrections.
Record t : Type := mk { matches : list Match.t; language : LanguageData.t }.
End Corrections.

Module ReadabilityResponse.
Record t : Type := mk {
  success : bool;
  message : option string;
  corrections : option Corrections.t;
  error : option string
}.
End ReadabilityResponse.

(** ** Plain objects used as dictionaries

    A [Record<string, T>] created by the literal [{}] has its own properties,
    modelled by a [gmap], and inherits those of [Object.prototype].  A read
    [o[k]] finds the own property first, then the inherited one, and is
    [undefined] otherwise. *)

Module JsObject.

(** The property names of [Object.prototype]. *)
Definition objectPrototypeKeys : list string :=
  [ "constructor"; "__defineGetter__"; "__defineSetter__"; "hasOwnProperty";
    "__lookupGetter__"; "__lookupSetter__"; "isPrototypeOf";
    "propertyIsEnumerable"; "toString"; "valueOf"; "__proto__";
    "toLocaleString" ].

Definition inherited (k : string) : bool :=
  bool_decide (k ∈ objectPrototypeKeys).

Inductive read (A : Type) : Type :=
  | Own (v : A)     (* an own property, with its value *)
  | Inherited       (* a function or object found on the prototype *)
  | Undefined.
Arguments Own {A} v.
Arguments Inherited {A}.
Arguments Undefined {A}.

Definition get {A} (o : gmap string A) (k : string) : read A :=
  match o !! k with
  | Some v => Own v
  | None => if inherited k then Inherited else Undefined
  end.

(** Truthiness of [o[k]] when own values are booleans: functions and
    objects are truthy, [undefined] is not. *)
Definition truthy (r : read bool) : bool :=
  match r with
  | Own b => b
  | Inherited => true
  | Undefined => false
  end.

End JsObject.

(** ** The resolution tracker: the [fixedMatches] state cell

    The three operations the handlers perform on it. *)

(** [setFixedMatches(prev => ({ ...prev, [matchKey]: true }))] *)
Definition markResolved (key : string) (prev : gmap string bool) : gmap string bool :=
  <[key := true]> prev.

(** [fixedMatches[matchKey]], read as a condition. *)
Definition isResolved (fixedMatches : gmap string bool) (key : string) : bool :=
  JsObject.truthy (JsObject.get fixedMatches key).

(** [setFixedMatches({})] *)
Definition reset : gmap string bool := ∅.

(** Outcome of [axios.post('/api/analyze', ...)] as the components see it:
    the promise resolves with the response body, or rejects (no answer, or
    an answer with an error status). *)
Inductive AnalyzeOutcome : Type :=
  | Resolved (data : ReadabilityResponse.t)
  | Rejected.

(** [results?.corrections] is present. *)
Definition hasCorrections (r : option ReadabilityResponse.t) : bool :=
  match r with
  | Some r => bool_decide (is_Some (ReadabilityResponse.corrections r))
  | None => false
  end.

(** What both components store when a submission fails. *)
Definition failedResults : ReadabilityResponse.t :=
  ReadabilityResponse.mk false None None (Some "Failed to analyze content").

(** ** Component [GrammarChecker] (CorrrectionDisplay.tsx) *)

Module GrammarChecker.

Record State : Type := mkState {
  content : string;
  results : option ReadabilityResponse.t;
  loading : bool;
  language : string;
  fixedMatches : gmap string bool
}.

Definition setContent (v : string) (st : State) : State :=
  mkState v (results st) (loading st) (language st) (fixedMatches st).
Definition setResults (v : option ReadabilityResponse.t) (st : State) : State :=
  mkState (content st) v (loading st) (language st) (fixedMatches st).
Definition setLoading (v : bool) (st : State) : State :=
  mkState (content st) (results st) v (language st) (fixedMatches st).
Definition setFixedMatches (f : gmap string bool -> gmap string bool) (st : State) : State :=
  mkState (content st) (results st) (loading st) (language st) (f (fixedMatches st)).

(** [handleSubmit], up to the [await]: the request is issued with the
    current content and language. *)
Definition handleSubmit_begin (st : State) : State :=
  setFixedMatches (fun _ => reset) (setLoading true st).

(** [handleSubmit], from the settled promise to the end. *)
Definition handleSubmit_settle (o : AnalyzeOutcome) (st : State) : State :=
  let st' :=
    match o with
    | Resolved data => setResults (Some data) st
    | Rejected => setResults (Some failedResults) st
    end in
  setLoading false st'.

Definition handleSubmit (o : AnalyzeOutcome) (st : State) : State :=
  handleSubmit_settle o (handleSubmit_begin st).

Definition handleFix (m : Match.t) (replacement : string) (st : State) : State :=
  if negb (hasCorrections (results st)) then st
  else
    let newContent :=
      Js.substring (content st) 0 (Some (Match.offset m))
        +:+ replacement
        +:+ Js.substring (content st) (Match.offset m + Match.length m) None in
    let st := setContent newContent st in
    let matchKey := matchKey m in
    setFixedMatches (markResolved matchKey) st.

(** [separateMatches]: one pass over the findings, pushing each onto one of
    two arrays. *)
Definition separateStep (fixedMatches : gmap string bool)
    (acc : list Match.t * list Match.t) (m : Match.t) : list Match.t * list Match.t :=
  let '(corrections, suggestions) := acc in
  let matchKey := matchKey m in
  if bool_decide (List.length (Match.replacements m) = 1%nat)
       && negb (isResolved fixedMatches matchKey)
  then (corrections ++ [m], suggestions)
  else (corrections, suggestions ++ [m]).

Definition separateMatches (fixedMatches : gmap string bool) (matches : list Match.t)
    : list Match.t * list Match.t :=
  fold_left (separateStep fixedMatches) matches ([], []).

(** [groupMatchesBySentence]: one pass over the findings; the body of the
    callback may throw. *)
Definition groupStep (sentenceMap : gmap string (list Match.t)) (m : Match.t)
    : result Js.Error (gmap string (list Match.t)) :=
  let sentence := Context.text (Match.context m) in
  let sentenceMap :=
    match JsObject.get sentenceMap sentence with
    | JsObject.Undefined => <[sentence := []]> sentenceMap
    | JsObject.Own _ | JsObject.Inherited => sentenceMap
    end in
  match JsObject.get sentenceMap sentence with
  | JsObject.Own arr => Ok (<[sentence := arr ++ [m]]> sentenceMap)
  | JsObject.Inherited => Err Js.TypeError
  | JsObject.Undefined => Err Js.TypeError
  end.

Fixpoint forEach_group (matches : list Match.t) (sentenceMap : gmap string (list Match.t))
    : result Js.Error (gmap string (list Match.t)) :=
  match matches with
  | [] => Ok sentenceMap
  | m :: rest => sentenceMap' ← groupStep sentenceMap m; forEach_group rest sentenceMap'
  end.

Definition groupMatchesBySentence (matches : list Match.t)
    : result Js.Error (gmap string (list Match.t)) :=
  forEach_group matches ∅.

End GrammarChecker.

(** ** Route handler of [/api/insert-keyword] *)

Module InsertKeyword.

(** The parsed request body [{match, replacement, content}].  [None] for
    [match_] stands for a body whose [match] is [null] or missing, so that
    reading [match.offset] throws; [None] for [content] stands for a value
    that is not a string, so that [content.substring] is not callable. *)
Record Body : Type := mkBody {
  match_ : option Match.t;
  replacement : string;
  content : option string
}.

Record Response : Type := mkResponse {
  status : Z;
  success : bool;
  newContent : option string;
  error : option Js.Error
}.

(** The [try] block, up to the computation of [newContent].  The request is
    [None] when [req.json()] rejects. *)
Definition try_block (req : option Body) : result Js.Error string :=
  body ← match req with Some b => Ok b | None => Err Js.SyntaxError end;
  m ← match match_ body with Some m => Ok m | None => Err Js.TypeError end;
  let start := Match.offset m in
  let end_ := Match.offset m + Match.length m in
  content ← match content body with Some c => Ok c | None => Err Js.TypeError end;
  Ok (Js.substring content 0 (Some start)
        +:+ replacement body
        +:+ Js.substring content end_ None).

Definition POST (req : option Body) : Response :=
  match try_block req with
  | Ok newContent => mkResponse 200 true (Some newContent) None
  | Err error => mkResponse 500 true None (Some error)
  end.

End InsertKeyword.

(** ** Component [InputContent] (InputContent.tsx)

    Toast notifications are not part of the state and are left out. *)

Module InputContent.

Record State : Type := mkState {
  content : string;
  formContent : string;       (* the [content] field of the form *)
  isSubmitting : bool;
  results : option ReadabilityResponse.t;
  loading : bool;
  fixedMatches : gmap string bool
}.

Definition setContent (v : string) (st : State) : State :=
  mkState v (formContent st) (isSubmitting st) (results st) (loading st) (fixedMatches st).
Definition setValue_content (v : string) (st : State) : State :=
  mkState (content st) v (isSubmitting st) (results st) (loading st) (fixedMatches st).
Definition setIsSubmitting (v : bool) (st : State) : State :=
  mkState (content st) (formContent st) v (results st) (loading st) (fixedMatches st).
Definition setResults (v : option ReadabilityResponse.t) (st : State) : State :=
  mkState (content st) (formContent st) (isSubmitting st) v (loading st) (fixedMatches st).
Definition setLoading (v : bool) (st : State) : State :=
  mkState (content st) (formContent st) (isSubmitting st) (results st) v (fixedMatches st).
Definition setFixedMatches (f : gmap string bool -> gmap string bool) (st : State) : State :=
  mkState (content st) (formContent st) (isSubmitting st) (results st) (loading st)
    (f (fixedMatches st)).

(** [onsubmit], up to the [await]. *)
Definition onsubmit_begin (st : State) : State :=
  setFixedMatches (fun _ => reset) (setIsSubmitting true st).

(** [onsubmit], from the settled promise to the end. *)
Definition onsubmit_settle (o : AnalyzeOutcome) (st : State) : State :=
  let st' :=
    match o with
    | Resolved data =>
        if ReadabilityResponse.success data
        then setResults (Some data) st
        else setResults (Some failedResults) st
    | Rejected => setResults (Some failedResults) st
    end in
  setIsSubmitting false st'.

Definition onsubmit (o : AnalyzeOutcome) (st : State) : State :=
  onsubmit_settle o (onsubmit_begin st).

(** [handleFix]: the replacement is computed by the route handler.
    [reachable] tells whether the request gets an answer; axios rejects
    when it gets none and when the status is outside [200, 300). *)
Definition handleFix (reachable : bool) (m : Match.t) (replacement : string)
    (st : State) : State :=
  if negb (hasCorrections (results st)) then st
  else
    let st := setLoading true st in
    let response :=
      InsertKeyword.POST
        (Some (InsertKeyword.mkBody (Some m) replacement (Some (content st)))) in
    let st' :=
      if reachable && (200 <=? InsertKeyword.status response)
                   && (InsertKeyword.status response <? 300)
      then
        match InsertKeyword.newContent response with
        | Some newContent =>
            let st := setContent newContent st in
            let st := setValue_content newContent st in
            let matchKey := matchKey m in
            setFixedMatches (markResolved matchKey) st
        | None => st   (* not reached: a 200 answer carries [newContent] *)
        end
      else st in
    setLoading false st'.

End InputContent.

(** ** The zod schema (inputSchema.ts) and the route handler of [/api/analyze] *)

Module Analyze.

(** A field of the JSON body: absent, present with a value that is not a
    string (of the given JavaScript type), or a string. *)
Inductive field : Type :=
  | Missing
  | NonString (received : string)
  | Str (s : string).

Record Body : Type := mkBody { content : field; language : field }.

Inductive ZodIssueCode : Type := invalid_type | too_small | too_big.

Record ZodIssue : Type := mkIssue {
  code : ZodIssueCode;
  path : list string;
  issue_message : string
}.

(** [z.infer<typeof inputSchema>] *)
Record Data : Type := mkData { data_content : string; data_language : option string }.

(** [z.string().min(5, ...).max(800, ...)] at key [content] *)
Definition content_issues (f : field) : list ZodIssue :=
  match f with
  | Missing => [mkIssue invalid_type ["content"] "Required"]
  | NonString r =>
      [mkIssue invalid_type ["content"] ("Expected string, received " +:+ r)]
  | Str s =>
      (if (String.length s <? 5)%nat
       then [mkIssue too_small ["content"] "Content must be at least 5 characters long"]
       else [])
      ++
      (if (800 <? String.length s)%nat
       then [mkIssue too_big ["content"] "content must be less than 200 characters long"]
       else [])
  end.

(** [z.string().optional()] at key [language] *)
Definition language_issues (f : field) : list ZodIssue :=
  match f with
  | Missing | Str _ => []
  | NonString r =>
      [mkIssue invalid_type ["language"] ("Expected string, received " +:+ r)]
  end.

(** [inputSchema.safeParse(body)]: every issue of every field is reported. *)
Definition safeParse (body : Body) : result (list ZodIssue) Data :=
  match content_issues (content body) ++ language_issues (language body),
        content body with
  | [], Str c =>
      Ok (mkData c match language body with Str l => Some l | _ => None end)
  | issues, _ => Err issues
  end.

Definition supportedLanguages : list string := ["en"; "de"; "fr"; "es"; "it"].

(** The request sent to the grammar oracle. *)
Record OracleCall : Type := mkCall { call_text : string; call_language : string }.

(** Its outcome: the response data, or an axios error, which may carry the
    status of an error response and the [message] of its body. *)
Inductive OracleOutcome : Type :=
  | OracleData (data : Corrections.t)
  | OracleError (response : option (Z * option string)).

Record Response : Type := mkResponse {
  status : Z;
  success : bool;
  message : option string;
  errors : list ZodIssue;
  corrections : option Corrections.t;
  error : option string
}.

(** The [catch] block, given [axiosError.response]. *)
Definition catch_block (response : option (Z * option string)) : Response :=
  let statusCode :=
    match response with
    | Some (st, _) => if st =? 0 then 500 else st
    | None => 500
    end in
  let errorMsg :=
    match response with
    | Some (_, Some msg) => if bool_decide (msg = "") then "Failed to connect to API" else msg
    | _ => "Failed to connect to API"
    end in
  mkResponse statusCode false None [] None (Some errorMsg).

(** [POST]: the answer, and the calls made to the oracle on the way.  The
    request is [None] when [req.json()] rejects. *)
Definition POST (req : option Body) (oracle : OracleCall -> OracleOutcome)
    : Response * list OracleCall :=
  match req with
  | None => (catch_block None, [])
  | Some body =>
      match safeParse body with
      | Err issues =>
          (mkResponse 400 false (Some "Invalid input") issues None None, [])
      | Ok data =>
          let content := data_content data in
          let language := default "en" (data_language data) in
          let lang :=
            if bool_decide (language ∈ supportedLanguages) then language else "en" in
          if bool_decide (content = "")
          then (mkResponse 400 false
                  (Some "Content is required and must be a string.") [] None None, [])
          else
            let call := mkCall content lang in
            match oracle call with
            | OracleData data =>
                (mkResponse 200 true (Some "Content analyzed successfully") []
                   (Some data) None, [call])
            | OracleError response => (catch_block response, [call])
            end
      end
  end.

End Analyze.

(** ** The replacement contract, in the words of the specification

    [content[0:offset] + replacementText + content[offset+length : end]],
    on the code units of the strings.  A slice bound below zero denotes the
    start of the string. *)
Definition spec_newContent (content : string) (offset length : Z)
    (replacementText : string) : string :=
  string_of_list_ascii
    (take (Z.to_nat offset) (Js.chars content)
       ++ Js.chars replacementText
       ++ drop (Z.to_nat (offset + length)) (Js.chars content)).

(** ** Notions used to state the properties *)

(** The tracker holds an entry that marks the key resolved. *)
Definition marked (fixedMatches : gmap string bool) (key : string) : Prop :=
  fixedMatches !! key = Some true.

(** A correction: exactly one candidate replacement, and a fingerprint that
    is not marked resolved. *)
Definition correction (fixedMatches : gmap string bool) (m : Match.t) : Prop :=
  List.length (Match.replacements m) = 1%nat /\ ~ marked fixedMatches (matchKey m).

#[global] Instance marked_dec fm key : Decision (marked fm key).
Proof. unfold marked. apply _. Defined.

#[global] Instance correction_dec fm m : Decision (correction fm m).
Proof. unfold correction. apply _. Defined.

(** The findings of a sequence whose context string is [sentence], in order. *)
Definition sharing (sentence : string) (matches : list Match.t) : list Match.t :=
  filter (fun m => Context.text (Match.context m) = sentence) matches.

(** The string has a hyphen among its code units. *)
Fixpoint has_dash (s : string) : bool :=
  match s with
  | EmptyString => false
  | String c rest => if Ascii.eqb c "-" then true else has_dash rest
  end.

(** A submission that failed: the call was rejected, or answered
    [success: false]. *)
Definition failed (o : AnalyzeOutcome) : Prop :=
  match o with
  | Rejected => True
  | Resolved data => ReadabilityResponse.success data = false
  end.

(** ** Sample data *)

Definition english : LanguageData.t := LanguageData.mk "English" "en".

(** A successful analysis with the given findings. *)
Definition analysed (matches : list Match.t) : ReadabilityResponse.t :=
  ReadabilityResponse.mk true (Some "Content analyzed successfully")
    (Some (Corrections.mk matches english)) None.

(** The word "quick" in "The quick brown fox". *)
Definition quick : Match.t :=
  Match.mk "Consider a different word" "" [Replacement.mk "slow"] 4 5
    (Context.mk "The quick brown fox").

(** A finding that reaches past the end of a ten-character content. *)
Definition stale : Match.t :=
  Match.mk "Possible spelling mistake found" "" [Replacement.mk "X"] 8 5
    (Context.mk "0123456789").

(** "dont" in "She dont like apples." *)
Definition dont : Match.t :=
  Match.mk "Grammatical error" "" [Replacement.mk "doesn't"] 4 4
    (Context.mk "She dont like apples.").

(** A finding in a text that consists of the word "constructor". *)
Definition lowercase : Match.t :=
  Match.mk "This sentence does not start with an uppercase letter." ""
    [Replacement.mk "Constructor"] 0 11 (Context.mk "constructor").

Definition checker (content : string) (matches : list Match.t)
    (fixedMatches : gmap string bool) : GrammarChecker.State :=
  GrammarChecker.mkState content (Some (analysed matches)) false "en" fixedMatches.

Definition form (content : string) (matches : list Match.t)
    (fixedMatches : gmap string bool) : InputContent.State :=
  InputContent.mkState content content false (Some (analysed matches)) false fixedMatches.

(** ** Whitespace, [trim] and [split(/\s+/)]

    On code units below 256 the white space and line terminators of
    JavaScript are the tab, the line feed, the vertical tab, the form feed,
    the carriage return, the space and the no-break space. *)

Module JsText.

Definition isWhiteSpace (c : ascii) : bool :=
  bool_decide (nat_of_ascii c ∈ [9; 10; 11; 12; 13; 32; 160]%nat).

Fixpoint trimStart (l : list ascii) : list ascii :=
  match l with
  | [] => []
  | c :: rest => if isWhiteSpace c then trimStart rest else l
  end.

Definition trimEnd (l : list ascii) : list ascii :=
  reverse (trimStart (reverse l)).

(** [s.trim()] *)
Definition trim (s : string) : string :=
  string_of_list_ascii (trimEnd (trimStart (Js.chars s))).

(** [s.split(/\s+/)]: the pieces of [s] between maximal runs of white
    space.  [inRun] tells that the previous code unit was white space,
    [piece] is the piece being read. *)
Fixpoint split_go (inRun : bool) (piece : list ascii) (l : list ascii) : list string :=
  match l with
  | [] => [string_of_list_ascii piece]
  | c :: rest =>
      if isWhiteSpace c
      then if inRun then split_go true piece rest
           else string_of_list_ascii piece :: split_go true [] rest
      else split_go false (piece ++ [c]) rest
  end.

Definition split_whitespace (s : string) : list string :=
  split_go false [] (Js.chars s).

End JsText.

(** [calculateWordCount], the same in both components:
    [text.trim() ? text.trim().split(/\s+/).length : 0]. *)
Definition calculateWordCount (text : string) : nat :=
  if bool_decide (JsText.trim text = "") then 0%nat
  else List.length (JsText.split_whitespace (JsText.trim text)).

(** ** Readability levels (InputContent.tsx)

    A JavaScript number is not-a-number, an infinity, or a finite value,
    which is a rational; comparisons of numbers are exact. *)

Module Readability.

Inductive number : Type :=
  | NaN
  | Infinity (negative : bool)
  | Finite (q : Q).

(** [x >= k] for an integer literal [k]. *)
Definition ge (x : number) (k : Z) : bool :=
  match x with
  | NaN => false
  | Infinity negative => negb negative
  | Finite q => Qle_bool (inject_Z k) q
  end.

Record Level : Type := mkLevel { level : string; color : string }.

Definition getReadabilityLevel (score : number) : Level :=
  if ge score 90 then mkLevel "Very Easy" "text-emerald-500"
  else if ge score 80 then mkLevel "Easy" "text-teal-500"
  else if ge score 70 then mkLevel "Fairly Easy" "text-cyan-500"
  else if ge score 60 then mkLevel "Standard" "text-yellow-500"
  else if ge score 50 then mkLevel "Fairly Difficult" "text-orange-500"
  else if ge score 30 then mkLevel "Difficult" "text-red-500"
  else mkLevel "Very Difficult" "text-red-600".

(** The levels, from the hardest to the easiest. *)
Definition levels : list string :=
  [ "Very Difficult"; "Difficult"; "Fairly Difficult"; "Standard";
    "Fairly Easy"; "Easy"; "Very Easy" ].

(** The position of a level in [levels]. *)
Fixpoint position (name : string) (l : list string) : option nat :=
  match l with
  | [] => None
  | x :: rest => if bool_decide (x = name) then Some 0%nat else S <$> position name rest
  end.

Definition ease (score : number) : option nat :=
  position (level (getReadabilityLevel score)) levels.

(** The order of numbers, where it is defined. *)
Definition le (x y : number) : Prop :=
  match x, y with
  | NaN, _ | _, NaN => False
  | Infinity true, _ => True
  | _, Infinity false => True
  | Finite p, Finite q => Qle p q
  | _, _ => False
  end.

End Readability.

(** ** The languages the components offer *)

(** [LANGUAGES] of InputContent.tsx, as (label, value). *)
Definition LANGUAGES : list (string * string) :=
  [ ("English", "en"); ("French", "fr"); ("Italian", "it");
    ("German", "de"); ("Spanish", "es") ].

(** The [option] elements of the [select] of CorrrectionDisplay.tsx, as
    (value, label). *)
Definition selectOptions : list (string * string) :=
  [ ("en", "English"); ("de", "German"); ("fr", "French");
    ("es", "Spanish"); ("it", "Italian") ].

(** ** A session of the component [GrammarChecker]

    The events the rendered page can raise, and the handler each one runs:
    the textarea calls [setContent], the select calls [setLanguage], the
    button runs [handleSubmit], a fix button runs [handleFix]. *)

Module Session.




(** The state of the [useState] cells when the component mounts. *)
Definition initial : GrammarChecker.State :=
  GrammarChecker.mkState "" None false "en" ∅.


End Session.

(** ** Two replacements at once

    The content with the span at [o1] of length [l1] replaced by [r1] and
    the span at [o2] of length [l2] replaced by [r2], the first span lying
    before the second. *)
Definition replace_both (content : string) (o1 l1 : nat) (r1 : string)
    (o2 l2 : nat) (r2 : string) : string :=
  string_of_list_ascii
    (take o1 (Js.chars content) ++ Js.chars r1
       ++ take (o2 - (o1 + l1)) (drop (o1 + l1) (Js.chars content))
       ++ Js.chars r2 ++ drop (o2 + l2) (Js.chars content)).

(** The number of words of a text: the code units that are not white space
    and follow white space or start the text. *)
Fixpoint wordStarts (afterSpace : bool) (l : list ascii) : nat :=
  match l with
  | [] => 0
  | c :: rest =>
      if JsText.isWhiteSpace c then wordStarts true rest
      else ((if afterSpace then 1 else 0) + wordStarts false rest)%nat
  end.

(** The last code unit of a text is not white space. *)
Definition endsWord (l : list ascii) : Prop :=
  exists l' c, l = l' ++ [c] /\ JsText.isWhiteSpace c = false.

(** A list with the [l] elements from position [o] replaced by [r]. *)
Definition splice {A} (c : list A) (o l : nat) (r : list A) : list A :=
  take o c ++ r ++ drop (o + l) c.

(** The word "brown" in "The quick brown fox". *)
Definition brown : Match.t :=
  Match.mk "Consider a different colour" "" [Replacement.mk "red"] 10 5
    (Context.mk "The quick brown fox").


(** The context string of a finding is the name of a property of
    [Object.prototype]. *)
Definition namesPrototypeProperty (m : Match.t) : Prop :=
  JsObject.inherited (Context.text (Match.context m)) = true.

(** ** [countSyllables] (InputContent.tsx)

    The regular expressions are written out on code units below 256. *)

Module Syllables.

(** [toLowerCase] on one code unit: the capital letters A to Z and the
    capital letters of Latin-1 (192 to 222, except the multiplication sign
    215) are 32 below their small letters. *)
Definition lower (c : ascii) : ascii :=
  let n := nat_of_ascii c in
  if ((65 <=? n) && (n <=? 90) || (192 <=? n) && (n <=? 222) && negb (n =? 215))%nat
  then ascii_of_nat (n + 32)
  else c.

Definition toLowerCase (w : list ascii) : list ascii := map lower w.

(** The class [[aeiouy]]. *)
Definition isVowel (c : ascii) : bool :=
  bool_decide (c ∈ Js.chars "aeiouy").

(** The class [[^laeiouy]]. *)
Definition notSoft (c : ascii) : bool :=
  negb (bool_decide (c ∈ Js.chars "laeiouy")).

(** [word.replace(/(?:[^laeiouy]es|ed|[^laeiouy]e)$/, '')], read on the
    reversed word: the three alternatives end in different letters. *)
Definition dropEnding (w : list ascii) : list ascii :=
  match reverse w with
  | e :: x :: rest =>
      if bool_decide (e = "s"%char) then
        match x, rest with
        | x, y :: rest' =>
            if bool_decide (x = "e"%char) && notSoft y then reverse rest' else w
        | _, [] => w
        end
      else if bool_decide (e = "d"%char) && bool_decide (x = "e"%char) then reverse rest
      else if bool_decide (e = "e"%char) && notSoft x then reverse rest
      else w
  | _ => w
  end.

(** [word.replace(/^y/, '')] *)
Definition dropLeadingY (w : list ascii) : list ascii :=
  match w with
  | c :: rest => if bool_decide (c = "y"%char) then rest else w
  | [] => []
  end.

(** The number of matches of [/[aeiouy]{1,2}/g]: from left to right, a
    vowel starts a match, which takes the next code unit too when it is a
    vowel. *)
Fixpoint vowelGroups (w : list ascii) : nat :=
  match w with
  | [] => 0
  | c :: rest =>
      if isVowel c then
        match rest with
        | d :: rest' => if isVowel d then S (vowelGroups rest') else S (vowelGroups rest)
        | [] => 1
        end
      else vowelGroups rest
  end.

Definition countSyllables (word : string) : nat :=
  let word := toLowerCase (Js.chars word) in
  let word := dropEnding word in
  let word := dropLeadingY word in
  let syllableCount := vowelGroups word in
  if (syllableCount =? 0)%nat then 1%nat else syllableCount.

(** The number of vowels of a word. *)
Definition vowels (w : list ascii) : nat := List.length (filter (fun c => isVowel c = true) w).

End Syllables.

(** * Properties *)

(** ** Strings *)

Section strings.

Lemma chars_append (a b : string) :
  Js.chars (a +:+ b) = Js.chars a ++ Js.chars b.
Proof.
  induction a as [|c a IH]; simpl; [done|]. by rewrite <- IH.
Qed.

Lemma chars_length (s : string) :
  List.length (Js.chars s) = String.length s.
Proof. induction s; simpl; congruence. Qed.

Lemma chars_inj (a b : string) : Js.chars a = Js.chars b -> a = b.
Proof.
  intros H. rewrite <- (string_of_list_ascii_of_string a),
    <- (string_of_list_ascii_of_string b). unfold Js.chars in H. by rewrite H.
Qed.

Lemma chars_of_list (l : list ascii) : Js.chars (string_of_list_ascii l) = l.
Proof. apply list_ascii_of_string_of_list_ascii. Qed.

Lemma chars_substring (s : string) (n m : nat) :
  Js.chars (String.substring n m s) = take m (drop n (Js.chars s)).
Proof.
  revert n m. induction s as [|c s IH]; intros n m.
  - destruct n, m; reflexivity.
  - destruct n as [|n].
    + destruct m as [|m]; simpl; [done|]. f_equal. apply (IH 0%nat m).
    + simpl. apply IH.
Qed.

(** [s.substring(0, e)] is the prefix of [s] of [e] code units, for every
    integer [e]. *)
Lemma substring_prefix (s : string) (e : Z) :
  Js.chars (Js.substring s 0 (Some e)) = take (Z.to_nat e) (Js.chars s).
Proof.
  unfold Js.substring, Js.clamp. rewrite chars_substring.
  pose proof (chars_length s) as Hlen.
  remember (Z.of_nat (String.length s)) as len eqn:Elen.
  assert (Z.min 0 len = 0) as -> by lia.
  assert (Z.max 0 0 = 0) as -> by lia.
  assert (Z.min 0 (Z.max 0 (Z.min e len)) = 0) as -> by lia.
  rewrite Z.sub_0_r. change (Z.to_nat 0) with 0%nat. rewrite drop_0.
  destruct (Z.le_gt_cases e len) as [Hle|Hgt].
  - f_equal. lia.
  - rewrite !take_ge; [done|lia|lia].
Qed.

(** [s.substring(b)] is what is left of [s] after its first [b] code
    units, for every integer [b]. *)
Lemma substring_suffix (s : string) (b : Z) :
  Js.chars (Js.substring s b None) = drop (Z.to_nat b) (Js.chars s).
Proof.
  unfold Js.substring, Js.clamp. rewrite chars_substring.
  pose proof (chars_length s) as Hlen.
  remember (Z.of_nat (String.length s)) as len eqn:Elen.
  assert (Z.min (Z.max 0 (Z.min b len)) len = Z.max 0 (Z.min b len)) as -> by lia.
  rewrite take_ge by (rewrite length_drop; lia).
  destruct (Z.le_gt_cases b len) as [Hle|Hgt].
  - f_equal. lia.
  - rewrite !drop_ge; [done|lia|lia].
Qed.

(** The expression both appliers compute. *)
Lemma applied_is_spec (content replacement : string) (offset length : Z) :
  Js.substring content 0 (Some offset) +:+ replacement
    +:+ Js.substring content (offset + length) None
  = spec_newContent content offset length replacement.
Proof.
  apply chars_inj. unfold spec_newContent.
  by rewrite chars_of_list, !chars_append, substring_prefix, substring_suffix.
Qed.

End strings.

(** ** Fingerprints *)

Section fingerprints.

Lemma has_dash_append_dash (a b : string) : has_dash (a +:+ "-" +:+ b) = true.
Proof.
  induction a as [|c a IH]; simpl; [done|]. by destruct (Ascii.eqb c "-").
Qed.

Lemma matchKey_has_dash (m : Match.t) : has_dash (matchKey m) = true.
Proof. unfold matchKey. apply has_dash_append_dash. Qed.

Lemma prototype_keys_no_dash :
  Forall (fun k => has_dash k = false) JsObject.objectPrototypeKeys.
Proof. unfold JsObject.objectPrototypeKeys. repeat constructor. Qed.

(** No fingerprint is the name of a property of [Object.prototype]. *)
Lemma matchKey_not_inherited (m : Match.t) : JsObject.inherited (matchKey m) = false.
Proof.
  unfold JsObject.inherited. apply bool_decide_eq_false. intros Hin.
  pose proof prototype_keys_no_dash as Hall.
  rewrite Forall_forall in Hall. specialize (Hall _ Hin).
  rewrite matchKey_has_dash in Hall. discriminate.
Qed.

(** On fingerprints, the condition [fixedMatches[matchKey]] holds exactly
    when the tracker marks the key resolved. *)
Lemma isResolved_matchKey (fm : gmap string bool) (m : Match.t) :
  isResolved fm (matchKey m) = bool_decide (marked fm (matchKey m)).
Proof.
  unfold isResolved, JsObject.get.
  destruct (fm !! matchKey m) as [[|]|] eqn:E; simpl.
  - symmetry. by apply bool_decide_eq_true_2.
  - symmetry. apply bool_decide_eq_false_2. unfold marked. congruence.
  - rewrite matchKey_not_inherited. symmetry.
    apply bool_decide_eq_false_2. unfold marked. congruence.
Qed.

Lemma substring_20 (message : string) :
  Js.substring message 0 (Some 20) = string_of_list_ascii (take 20 (Js.chars message)).
Proof.
  apply chars_inj. rewrite chars_of_list. apply (substring_prefix message 20).
Qed.

End fingerprints.

(** ** The replacement applicator *)

Section applicator.

Variables (content replacement : string) (m : Match.t).

Lemma POST_applies :
  InsertKeyword.POST
    (Some (InsertKeyword.mkBody (Some m) replacement (Some content)))
  = InsertKeyword.mkResponse 200 true
      (Some (spec_newContent content (Match.offset m) (Match.length m) replacement)) None.
Proof.
  unfold InsertKeyword.POST, InsertKeyword.try_block. simpl.
  by rewrite applied_is_spec.
Qed.

Lemma handleFix_applies (st : GrammarChecker.State) :
  GrammarChecker.content st = content ->
  hasCorrections (GrammarChecker.results st) = true ->
  GrammarChecker.handleFix m replacement st
  = GrammarChecker.mkState
      (spec_newContent content (Match.offset m) (Match.length m) replacement)
      (GrammarChecker.results st) (GrammarChecker.loading st)
      (GrammarChecker.language st)
      (markResolved (matchKey m) (GrammarChecker.fixedMatches st)).
Proof.
  intros Hc Hr. unfold GrammarChecker.handleFix. rewrite Hr. simpl.
  unfold GrammarChecker.setFixedMatches, GrammarChecker.setContent. simpl.
  by rewrite Hc, applied_is_spec.
Qed.

Lemma remote_handleFix_applies (st : InputContent.State) :
  InputContent.content st = content ->
  hasCorrections (InputContent.results st) = true ->
  InputContent.handleFix true m replacement st
  = InputContent.mkState
      (spec_newContent content (Match.offset m) (Match.length m) replacement)
      (spec_newContent content (Match.offset m) (Match.length m) replacement)
      (InputContent.isSubmitting st) (InputContent.results st) false
      (markResolved (matchKey m) (InputContent.fixedMatches st)).
Proof.
  intros Hc Hr. unfold InputContent.handleFix. rewrite Hr.
  cbn [negb InputContent.content InputContent.setLoading].
  rewrite Hc, POST_applies. reflexivity.
Qed.

End applicator.

(** C1.  When [offset + length] does not exceed the length of the content,
    applying a replacement yields the content before the offset, then the
    replacement, then the content from [offset + length] on: this is the
    [newContent] the route handler answers with status 200, and the content
    both components hold after [handleFix] on a state with corrections.  On
    "The quick brown fox", offset 4, length 5 and replacement "slow" the
    result is "The slow brown fox". *)
Theorem replacement_applied (content replacement : string) (m : Match.t) :
  Match.offset m + Match.length m <= Z.of_nat (String.length content) ->
  let newContent :=
    spec_newContent content (Match.offset m) (Match.length m) replacement in
  InsertKeyword.POST
    (Some (InsertKeyword.mkBody (Some m) replacement (Some content)))
  = InsertKeyword.mkResponse 200 true (Some newContent) None
  /\ (forall st, GrammarChecker.content st = content ->
        hasCorrections (GrammarChecker.results st) = true ->
        GrammarChecker.content (GrammarChecker.handleFix m replacement st) = newContent)
  /\ (forall st, InputContent.content st = content ->
        hasCorrections (InputContent.results st) = true ->
        InputContent.content (InputContent.handleFix true m replacement st) = newContent)
  /\ GrammarChecker.content
       (GrammarChecker.handleFix quick "slow" (checker "The quick brown fox" [quick] ∅))
     = "The slow brown fox".
Proof.
  intros _ newContent. split; [apply POST_applies|].
  split; [|split].
  - intros st Hc Hr. by rewrite (handleFix_applies content replacement m st Hc Hr).
  - intros st Hc Hr. by rewrite (remote_handleFix_applies content replacement m st Hc Hr).
  - reflexivity.
Qed.

Lemma replacement_applied_witness :
  InsertKeyword.POST
    (Some (InsertKeyword.mkBody (Some quick) "slow" (Some "The quick brown fox")))
  = InsertKeyword.mkResponse 200 true (Some "The slow brown fox") None.
Proof.
  apply (replacement_applied "The quick brown fox" "slow" quick).
  simpl. lia.
Defined.

(** C2, as stated, fails: on a content of ten characters and a finding with
    offset 8 and length 5 nothing is rejected.  The route handler answers
    200 with the first eight characters followed by the replacement, and
    [handleFix] stores that string and marks the finding resolved. *)
Lemma out_of_range_not_rejected :
  Z.of_nat (String.length "0123456789") < Match.offset stale + Match.length stale
  /\ InsertKeyword.try_block
       (Some (InsertKeyword.mkBody (Some stale) "X" (Some "0123456789")))
     = Ok "01234567X"
  /\ InsertKeyword.status
       (InsertKeyword.POST
          (Some (InsertKeyword.mkBody (Some stale) "X" (Some "0123456789")))) = 200
  /\ GrammarChecker.content
       (GrammarChecker.handleFix stale "X" (checker "0123456789" [stale] ∅))
     = "01234567X"
  /\ "01234567X" <> "0123456789"
  /\ isResolved
       (GrammarChecker.fixedMatches
          (GrammarChecker.handleFix stale "X" (checker "0123456789" [stale] ∅)))
       (matchKey stale) = true.
Proof. repeat split; try reflexivity. discriminate. Qed.

(** C2, amended.  When [offset + length] exceeds the length of the content
    the application does not fail: the part of the content from the offset
    on is dropped and the replacement is appended to what precedes it.  The
    route handler answers 200 with that string, the component stores it and
    marks the finding resolved. *)
Theorem out_of_range_truncates (content replacement : string) (m : Match.t) :
  Z.of_nat (String.length content) < Match.offset m + Match.length m ->
  let newContent :=
    string_of_list_ascii
      (take (Z.to_nat (Match.offset m)) (Js.chars content) ++ Js.chars replacement) in
  InsertKeyword.POST
    (Some (InsertKeyword.mkBody (Some m) replacement (Some content)))
  = InsertKeyword.mkResponse 200 true (Some newContent) None
  /\ (forall st, GrammarChecker.content st = content ->
        hasCorrections (GrammarChecker.results st) = true ->
        GrammarChecker.content (GrammarChecker.handleFix m replacement st) = newContent
        /\ isResolved
             (GrammarChecker.fixedMatches (GrammarChecker.handleFix m replacement st))
             (matchKey m) = true).
Proof.
  intros Hout newContent.
  assert (spec_newContent content (Match.offset m) (Match.length m) replacement
          = newContent) as Hspec.
  { unfold spec_newContent, newContent. f_equal. f_equal.
    rewrite drop_ge; [by rewrite app_nil_r|]. rewrite chars_length. lia. }
  split.
  - by rewrite POST_applies, Hspec.
  - intros st Hc Hr. rewrite (handleFix_applies content replacement m st Hc Hr).
    simpl. split; [done|].
    rewrite isResolved_matchKey. apply bool_decide_eq_true_2.
    unfold marked, markResolved. apply lookup_insert_eq.
Qed.

Lemma out_of_range_truncates_witness :
  InsertKeyword.POST
    (Some (InsertKeyword.mkBody (Some stale) "X" (Some "0123456789")))
  = InsertKeyword.mkResponse 200 true (Some "01234567X") None.
Proof.
  apply (out_of_range_truncates "0123456789" "X" stale).
  simpl. lia.
Defined.

(** ** The classifier *)

Section classifier.

Variable fixedMatches : gmap string bool.

Lemma separateStep_decide (corrections suggestions : list Match.t) (m : Match.t) :
  GrammarChecker.separateStep fixedMatches (corrections, suggestions) m
  = if decide (correction fixedMatches m)
    then (corrections ++ [m], suggestions)
    else (corrections, suggestions ++ [m]).
Proof.
  unfold GrammarChecker.separateStep. rewrite isResolved_matchKey.
  unfold correction.
  destruct (decide _) as [[H1 H2]|Hn].
  - by rewrite (bool_decide_eq_true_2 _ H1), (bool_decide_eq_false_2 _ H2).
  - destruct (decide (List.length (Match.replacements m) = 1%nat)) as [H1|H1].
    + rewrite (bool_decide_eq_true_2 _ H1).
      destruct (decide (marked fixedMatches (matchKey m))) as [H2|H2].
      * by rewrite (bool_decide_eq_true_2 _ H2).
      * exfalso. by apply Hn.
    + by rewrite (bool_decide_eq_false_2 _ H1).
Qed.

Lemma separate_fold (matches corrections suggestions : list Match.t) :
  fold_left (GrammarChecker.separateStep fixedMatches) matches (corrections, suggestions)
  = (corrections ++ filter (correction fixedMatches) matches,
     suggestions ++ filter (fun m => ~ correction fixedMatches m) matches).
Proof.
  revert corrections suggestions.
  induction matches as [|m matches IH]; intros corrections suggestions.
  - by rewrite !app_nil_r.
  - cbn [fold_left]. rewrite separateStep_decide, !filter_cons.
    destruct (decide (correction fixedMatches m)) as [Hc|Hc].
    + rewrite IH. rewrite decide_False by tauto. by rewrite <- app_assoc.
    + rewrite IH. rewrite decide_True by done. by rewrite <- app_assoc.
Qed.

Lemma separateMatches_filter (matches : list Match.t) :
  GrammarChecker.separateMatches fixedMatches matches
  = (filter (correction fixedMatches) matches,
     filter (fun m => ~ correction fixedMatches m) matches).
Proof. unfold GrammarChecker.separateMatches. by rewrite separate_fold. Qed.

End classifier.

(** C3.  [separateMatches] splits the findings in two: [corrections] is the
    input restricted to the findings with exactly one candidate replacement
    whose fingerprint the tracker does not mark resolved, [suggestions] is
    the input restricted to all the others, each in the order of the input,
    and together they hold every finding of the input.  Hence a finding with
    one candidate, once marked resolved, is among the suggestions and not
    among the corrections when the same findings are classified again. *)
Theorem classifier_partitions (fixedMatches : gmap string bool) (matches : list Match.t) :
  GrammarChecker.separateMatches fixedMatches matches
  = (filter (correction fixedMatches) matches,
     filter (fun m => ~ correction fixedMatches m) matches)
  /\ (GrammarChecker.separateMatches fixedMatches matches).1
       ++ (GrammarChecker.separateMatches fixedMatches matches).2 ≡ₚ matches
  /\ (forall m, m ∈ matches ->
        List.length (Match.replacements m) = 1%nat ->
        let again :=
          GrammarChecker.separateMatches
            (markResolved (matchKey m) fixedMatches) matches in
        m ∈ again.2 /\ m ∉ again.1).
Proof.
  split; [apply separateMatches_filter|]. split.
  - rewrite separateMatches_filter. apply filter_app_complement.
  - intros m Hin Hone again. subst again. rewrite separateMatches_filter. simpl.
    assert (~ correction (markResolved (matchKey m) fixedMatches) m) as Hn.
    { intros [_ Hnot]. apply Hnot. unfold marked, markResolved.
      apply lookup_insert_eq. }
    split.
    + apply list_elem_of_filter. by split.
    + intros Hc. apply list_elem_of_filter in Hc. tauto.
Qed.

Lemma classifier_partitions_witness :
  dont ∈ (GrammarChecker.separateMatches
            (markResolved (matchKey dont) ∅) [dont; quick]).2
  /\ dont ∉ (GrammarChecker.separateMatches
               (markResolved (matchKey dont) ∅) [dont; quick]).1.
Proof.
  apply (proj2 (proj2 (classifier_partitions ∅ [dont; quick])) dont).
  - apply list_elem_of_here.
  - reflexivity.
Defined.

(** ** The resolution tracker *)

(** C4.  A submission empties the tracker before the answer is known, hence
    before the new findings are stored: whatever fingerprint was marked
    resolved is no longer resolved once the submission is issued, and stays
    so when it settles, in both components. *)
Theorem tracker_reset_on_submit (m : Match.t) (o : AnalyzeOutcome) :
  (forall st,
     let st1 := GrammarChecker.setFixedMatches (markResolved (matchKey m)) st in
     isResolved (GrammarChecker.fixedMatches st1) (matchKey m) = true
     /\ GrammarChecker.fixedMatches (GrammarChecker.handleSubmit_begin st1) = ∅
     /\ GrammarChecker.results (GrammarChecker.handleSubmit_begin st1)
        = GrammarChecker.results st1
     /\ isResolved (GrammarChecker.fixedMatches (GrammarChecker.handleSubmit_begin st1))
          (matchKey m) = false
     /\ isResolved (GrammarChecker.fixedMatches (GrammarChecker.handleSubmit o st1))
          (matchKey m) = false)
  /\ (forall st,
     let st1 := InputContent.setFixedMatches (markResolved (matchKey m)) st in
     isResolved (InputContent.fixedMatches st1) (matchKey m) = true
     /\ InputContent.fixedMatches (InputContent.onsubmit_begin st1) = ∅
     /\ InputContent.results (InputContent.onsubmit_begin st1)
        = InputContent.results st1
     /\ isResolved (InputContent.fixedMatches (InputContent.onsubmit_begin st1))
          (matchKey m) = false
     /\ isResolved (InputContent.fixedMatches (InputContent.onsubmit o st1))
          (matchKey m) = false).
Proof.
  assert (isResolved ∅ (matchKey m) = false) as Hempty.
  { rewrite isResolved_matchKey. apply bool_decide_eq_false_2.
    unfold marked. by rewrite lookup_empty. }
  assert (forall fm, isResolved (markResolved (matchKey m) fm) (matchKey m) = true)
    as Hmarked.
  { intros fm. rewrite isResolved_matchKey. apply bool_decide_eq_true_2.
    unfold marked, markResolved. apply lookup_insert_eq. }
  split; intros st st1; subst st1.
  - repeat split; try done; try apply Hmarked.
    destruct o as [data|]; exact Hempty.
  - repeat split; try done; try apply Hmarked.
    destruct o as [data|]; [destruct (ReadabilityResponse.success data) eqn:E|].
    all: unfold InputContent.onsubmit, InputContent.onsubmit_settle; simpl;
      rewrite ?E; exact Hempty.
Qed.

(** ** Fingerprinting *)

(** C5.  The fingerprint of a finding is its offset in decimal, a hyphen,
    its length in decimal, a hyphen, and the first twenty characters of its
    message, which is the whole message when it has at most twenty.  It
    depends on nothing else: findings that agree on offset, length and that
    prefix have the same fingerprint, whatever their replacements. *)
Theorem fingerprint_composition (m : Match.t) :
  matchKey m
  = pretty (Match.offset m) +:+ "-" +:+ pretty (Match.length m) +:+ "-"
      +:+ string_of_list_ascii (take 20 (Js.chars (Match.message m)))
  /\ ((String.length (Match.message m) <= 20)%nat ->
      matchKey m
      = pretty (Match.offset m) +:+ "-" +:+ pretty (Match.length m) +:+ "-"
          +:+ Match.message m)
  /\ (forall m' : Match.t,
        Match.offset m' = Match.offset m ->
        Match.length m' = Match.length m ->
        take 20 (Js.chars (Match.message m')) = take 20 (Js.chars (Match.message m)) ->
        matchKey m' = matchKey m).
Proof.
  assert (forall x, matchKey x
    = pretty (Match.offset x) +:+ "-" +:+ pretty (Match.length x) +:+ "-"
        +:+ string_of_list_ascii (take 20 (Js.chars (Match.message x)))) as Hkey.
  { intros x. unfold matchKey, Js.toString. by rewrite substring_20. }
  split; [apply Hkey|]. split.
  - intros Hshort. rewrite Hkey. do 4 f_equal.
    rewrite take_ge by (rewrite chars_length; lia).
    apply string_of_list_ascii_of_string.
  - intros m' Ho Hl Hp. by rewrite !Hkey, Ho, Hl, Hp.
Qed.

Lemma fingerprint_composition_witness :
  matchKey dont = "4-4-Grammatical error"
  /\ matchKey (Match.mk "Grammatical error" "agreement"
                 [Replacement.mk "does not"; Replacement.mk "doesn't"] 4 4
                 (Context.mk "He said she dont like apples."))
     = matchKey dont.
Proof.
  split.
  - apply (proj1 (proj2 (fingerprint_composition dont))). simpl. lia.
  - apply (proj2 (proj2 (fingerprint_composition dont))); reflexivity.
Defined.

(** ** The error branch of the fix-application endpoint *)

(** C10.  Every answer of the route handler has [success: true].  When the
    [try] block throws, the answer has status 500, carries the error, has no
    [newContent], and still says [success: true]. *)
Theorem error_branch_reports_success (req : option InsertKeyword.Body) :
  InsertKeyword.success (InsertKeyword.POST req) = true
  /\ (forall e, InsertKeyword.try_block req = Err e ->
        InsertKeyword.POST req = InsertKeyword.mkResponse 500 true None (Some e))
  /\ (InsertKeyword.status (InsertKeyword.POST req) = 500 ->
        InsertKeyword.success (InsertKeyword.POST req) = true
        /\ InsertKeyword.newContent (InsertKeyword.POST req) = None
        /\ exists e, InsertKeyword.try_block req = Err e).
Proof.
  unfold InsertKeyword.POST.
  destruct (InsertKeyword.try_block req) as [newContent|e]; simpl.
  - split; [done|]. split; [intros e; discriminate|]. intros H. discriminate.
  - split; [done|]. split; [intros e' [= ->]; done|]. intros _. eauto.
Qed.

Lemma error_branch_reports_success_witness :
  InsertKeyword.POST (Some (InsertKeyword.mkBody None "slow" (Some "The quick brown fox")))
  = InsertKeyword.mkResponse 500 true None (Some Js.TypeError).
Proof.
  apply (proj1 (proj2 (error_branch_reports_success
    (Some (InsertKeyword.mkBody None "slow" (Some "The quick brown fox")))))).
  reflexivity.
Defined.

(** ** The sentence grouper *)

Section grouper.

Implicit Types (sentenceMap : gmap string (list Match.t)) (m : Match.t).

Lemma groupStep_plain sentenceMap m :
  JsObject.inherited (Context.text (Match.context m)) = false ->
  GrammarChecker.groupStep sentenceMap m
  = Ok (<[Context.text (Match.context m) :=
            default [] (sentenceMap !! Context.text (Match.context m)) ++ [m]]>
          sentenceMap).
Proof.
  intros Hplain. unfold GrammarChecker.groupStep, JsObject.get.
  destruct (sentenceMap !! Context.text (Match.context m)) as [arr|] eqn:E.
  - by rewrite E.
  - rewrite Hplain, lookup_insert_eq. simpl. by rewrite insert_insert_eq.
Qed.

Lemma groupStep_inherited sentenceMap m :
  JsObject.inherited (Context.text (Match.context m)) = true ->
  sentenceMap !! Context.text (Match.context m) = None ->
  GrammarChecker.groupStep sentenceMap m = Err Js.TypeError.
Proof.
  intros Hinh Hnone. unfold GrammarChecker.groupStep, JsObject.get.
  cbv zeta. rewrite Hnone, Hinh. cbv iota. by rewrite Hnone.
Qed.

(** When no context string is the name of a property of [Object.prototype],
    the pass succeeds and appends to each group the findings sharing its
    context string, in order. *)
Lemma forEach_group_plain (matches : list Match.t) sentenceMap :
  Forall (fun m => JsObject.inherited (Context.text (Match.context m)) = false) matches ->
  exists result,
    GrammarChecker.forEach_group matches sentenceMap = Ok result
    /\ forall sentence,
         result !! sentence
         = match sentenceMap !! sentence, sharing sentence matches with
           | None, [] => None
           | group, more => Some (default [] group ++ more)
           end.
Proof.
  revert sentenceMap. induction matches as [|m matches IH]; intros sentenceMap Hall.
  - exists sentenceMap. split; [done|]. intros sentence. unfold sharing. simpl.
    destruct (sentenceMap !! sentence); simpl; [by rewrite app_nil_r|done].
  - inversion Hall as [|? ? Hm Hrest]; subst.
    cbn [GrammarChecker.forEach_group]. rewrite (groupStep_plain _ _ Hm). simpl.
    destruct (IH (<[Context.text (Match.context m) :=
                      default [] (sentenceMap !! Context.text (Match.context m)) ++ [m]]>
                    sentenceMap) Hrest) as (result & Hrun & Hres).
    exists result. split; [exact Hrun|]. intros sentence. rewrite Hres.
    unfold sharing. rewrite filter_cons.
    destruct (decide (Context.text (Match.context m) = sentence)) as [->|Hne].
    + rewrite lookup_insert_eq. simpl. rewrite <- app_assoc. simpl.
      by destruct (sentenceMap !! sentence).
    + by rewrite lookup_insert_ne.
Qed.

Lemma groupMatchesBySentence_plain (matches : list Match.t) :
  Forall (fun m => JsObject.inherited (Context.text (Match.context m)) = false) matches ->
  exists result,
    GrammarChecker.groupMatchesBySentence matches = Ok result
    /\ forall sentence,
         result !! sentence
         = match sharing sentence matches with
           | [] => None
           | group => Some group
           end.
Proof.
  intros Hall. destruct (forEach_group_plain matches ∅ Hall) as (result & Hrun & Hres).
  exists result. split; [exact Hrun|]. intros sentence. rewrite Hres, lookup_empty.
  by destruct (sharing sentence matches).
Qed.

(** A context string that names a property of [Object.prototype] makes the
    pass throw. *)
Lemma forEach_group_inherited (matches : list Match.t) sentenceMap :
  (forall k, JsObject.inherited k = true -> sentenceMap !! k = None) ->
  Exists (fun m => JsObject.inherited (Context.text (Match.context m)) = true) matches ->
  GrammarChecker.forEach_group matches sentenceMap = Err Js.TypeError.
Proof.
  revert sentenceMap. induction matches as [|m matches IH]; intros sentenceMap Hown Hex.
  - inversion Hex.
  - cbn [GrammarChecker.forEach_group].
    destruct (JsObject.inherited (Context.text (Match.context m))) eqn:Hm.
    + by rewrite (groupStep_inherited _ _ Hm (Hown _ Hm)).
    + rewrite (groupStep_plain _ _ Hm). simpl. apply IH.
      * intros k Hk. rewrite lookup_insert_ne; [by apply Hown|]. congruence.
      * inversion Hex as [? ? Hhere|? ? Hlater]; subst; [congruence|done].
Qed.

End grouper.

(** C6, on the code.  A single finding whose context string is
    "constructor" is not grouped: reading [sentenceMap["constructor"]] finds
    the property inherited from [Object.prototype], no array is created,
    and the call of [push] throws.  The same holds for any sequence that
    contains such a finding. *)
Theorem grouper_throws_on_prototype_name :
  JsObject.get (∅ : gmap string (list Match.t)) "constructor" = JsObject.Inherited
  /\ GrammarChecker.groupMatchesBySentence [lowercase] = Err Js.TypeError
  /\ GrammarChecker.groupMatchesBySentence [dont; lowercase; quick] = Err Js.TypeError
  /\ (GrammarChecker.separateMatches ∅ [lowercase]).1 = [lowercase].
Proof. repeat split. Qed.

(** ** Failed submissions *)

(** C7, as stated, fails: a finding marked resolved is no longer so after a
    rejected submission, or one answered [success: false], in either
    component. *)
Lemma failed_submission_clears_tracker :
  let fixedMatches := markResolved (matchKey dont) ∅ in
  let refused := ReadabilityResponse.mk false (Some "Invalid input") None None in
  failed Rejected /\ failed (Resolved refused)
  /\ GrammarChecker.fixedMatches
       (GrammarChecker.handleSubmit Rejected
          (checker "She dont like apples." [dont] fixedMatches)) <> fixedMatches
  /\ GrammarChecker.fixedMatches
       (GrammarChecker.handleSubmit (Resolved refused)
          (checker "She dont like apples." [dont] fixedMatches)) <> fixedMatches
  /\ InputContent.fixedMatches
       (InputContent.onsubmit Rejected
          (form "She dont like apples." [dont] fixedMatches)) <> fixedMatches
  /\ InputContent.fixedMatches
       (InputContent.onsubmit (Resolved refused)
          (form "She dont like apples." [dont] fixedMatches)) <> fixedMatches.
Proof.
  intros fixedMatches refused. simpl.
  repeat split; intros H; symmetry in H;
    unfold fixedMatches, markResolved, reset in H; by apply insert_non_empty in H.
Qed.

(** C7, amended.  A failed submission leaves the content as it was; the
    tracker is empty afterwards, since it was emptied when the submission
    was issued. *)
Theorem failed_submission_effect (o : AnalyzeOutcome) :
  failed o ->
  (forall st,
     GrammarChecker.content (GrammarChecker.handleSubmit o st) = GrammarChecker.content st
     /\ GrammarChecker.fixedMatches (GrammarChecker.handleSubmit o st) = ∅)
  /\ (forall st,
     InputContent.content (InputContent.onsubmit o st) = InputContent.content st
     /\ InputContent.formContent (InputContent.onsubmit o st) = InputContent.formContent st
     /\ InputContent.fixedMatches (InputContent.onsubmit o st) = ∅
     /\ InputContent.results (InputContent.onsubmit o st) = Some failedResults).
Proof.
  intros Hfailed. split; intros st.
  - by destruct o.
  - destruct o as [data|]; simpl in Hfailed.
    + unfold InputContent.onsubmit, InputContent.onsubmit_settle. by rewrite Hfailed.
    + done.
Qed.

Lemma failed_submission_effect_witness :
  GrammarChecker.content
    (GrammarChecker.handleSubmit Rejected
       (checker "She dont like apples." [dont] (markResolved (matchKey dont) ∅)))
  = "She dont like apples."
  /\ GrammarChecker.fixedMatches
       (GrammarChecker.handleSubmit Rejected
          (checker "She dont like apples." [dont] (markResolved (matchKey dont) ∅)))
     = ∅.
Proof.
  apply (proj1 (failed_submission_effect Rejected I)).
Defined.

(** ** Validation and language of the analysis request *)

Section analyze.

Variable oracle : Analyze.OracleCall -> Analyze.OracleOutcome.

Lemma content_issues_in_range (s : string) :
  (5 <= String.length s <= 800)%nat -> Analyze.content_issues (Analyze.Str s) = [].
Proof.
  intros [Hlo Hhi]. unfold Analyze.content_issues.
  destruct (Nat.ltb_spec (String.length s) 5); [lia|].
  destruct (Nat.ltb_spec 800 (String.length s)); [lia|done].
Qed.

Lemma content_issues_out_of_range (s : string) :
  (String.length s < 5 \/ 800 < String.length s)%nat ->
  exists issue,
    Analyze.content_issues (Analyze.Str s) = [issue]
    /\ Analyze.path issue = ["content"]
    /\ (Analyze.code issue = Analyze.too_small \/ Analyze.code issue = Analyze.too_big).
Proof.
  intros Hout. unfold Analyze.content_issues.
  destruct (Nat.ltb_spec (String.length s) 5);
    destruct (Nat.ltb_spec 800 (String.length s)); try lia.
  - eexists. split; [reflexivity|]. simpl. auto.
  - eexists. split; [reflexivity|]. simpl. auto.
Qed.

Lemma language_issues_path (f : Analyze.field) (issue : Analyze.ZodIssue) :
  issue ∈ Analyze.language_issues f -> Analyze.path issue = ["language"].
Proof.
  destruct f; simpl; intros Hin; try by apply elem_of_nil in Hin.
  apply list_elem_of_singleton in Hin. by subst.
Qed.

(** The call made for a content that passes validation. *)
Lemma POST_calls_oracle (c : string) (language : option string) :
  (5 <= String.length c <= 800)%nat ->
  let field := match language with Some l => Analyze.Str l | None => Analyze.Missing end in
  let lang :=
    match language with
    | Some l => if bool_decide (l ∈ Analyze.supportedLanguages) then l else "en"
    | None => "en"
    end in
  (Analyze.POST (Some (Analyze.mkBody (Analyze.Str c) field)) oracle).2
  = [Analyze.mkCall c lang].
Proof.
  intros Hrange field lang. unfold Analyze.POST, Analyze.safeParse.
  cbn [Analyze.content Analyze.language].
  rewrite (content_issues_in_range c Hrange).
  assert (Analyze.language_issues field = []) as -> by (by destruct language).
  cbn [app Analyze.data_content Analyze.data_language].
  rewrite bool_decide_eq_false_2 by (intros ->; simpl in Hrange; lia).
  assert ((if bool_decide
                (default "en" match field with Analyze.Str l => Some l | _ => None end
                   ∈ Analyze.supportedLanguages)
           then default "en" match field with Analyze.Str l => Some l | _ => None end
           else "en") = lang) as ->.
  { subst field lang. destruct language as [l|]; [done|].
    cbn [default]. by destruct (bool_decide _). }
  by destruct (oracle _).
Qed.

End analyze.

(** C8.  A content shorter than 5 or longer than 800 characters is refused
    by [safeParse] with an issue located at the field [content]; the route
    handler then answers 400 with the list of issues and makes no call to
    the oracle.  A content of 5 to 800 characters raises no issue at
    [content], and the body is accepted whenever its language field raises
    none. *)
Theorem content_length_validated (s : string) (language : Analyze.field)
    (oracle : Analyze.OracleCall -> Analyze.OracleOutcome) :
  let body := Analyze.mkBody (Analyze.Str s) language in
  ((String.length s < 5 \/ 800 < String.length s)%nat ->
     exists issue issues,
       Analyze.safeParse body = Err (issue :: issues)
       /\ Analyze.path issue = ["content"]
       /\ (Analyze.code issue = Analyze.too_small \/ Analyze.code issue = Analyze.too_big)
       /\ (forall other, other ∈ issues -> Analyze.path other = ["language"])
       /\ Analyze.POST (Some body) oracle
          = (Analyze.mkResponse 400 false (Some "Invalid input") (issue :: issues)
               None None, []))
  /\ ((5 <= String.length s <= 800)%nat ->
        Analyze.content_issues (Analyze.Str s) = []
        /\ (forall issue, issue ∈ Analyze.errors (Analyze.POST (Some body) oracle).1 ->
              Analyze.path issue = ["language"])
        /\ (Analyze.language_issues language = [] ->
              Analyze.safeParse body
              = Ok (Analyze.mkData s
                      match language with Analyze.Str l => Some l | _ => None end))).
Proof.
  intros body. split.
  - intros Hout.
    destruct (content_issues_out_of_range s Hout) as (issue & Hissues & Hpath & Hcode).
    exists issue, (Analyze.language_issues language).
    assert (Analyze.safeParse body = Err (issue :: Analyze.language_issues language))
      as Hparse.
    { unfold Analyze.safeParse, body. cbn [Analyze.content Analyze.language].
      by rewrite Hissues. }
    repeat split; try done.
    + apply language_issues_path.
    + unfold Analyze.POST. by rewrite Hparse.
  - intros Hrange. pose proof (content_issues_in_range s Hrange) as Hnone.
    split; [done|].
    assert (Analyze.safeParse body
            = match Analyze.language_issues language with
              | [] => Ok (Analyze.mkData s
                       match language with Analyze.Str l => Some l | _ => None end)
              | issues => Err issues
              end) as Hparse.
    { unfold Analyze.safeParse, body. cbn [Analyze.content Analyze.language].
      rewrite Hnone. simpl. by destruct (Analyze.language_issues language). }
    split.
    + intros issue. unfold Analyze.POST. rewrite Hparse.
      destruct (Analyze.language_issues language) as [|i rest] eqn:Hlang.
      * cbn [Analyze.data_content].
        rewrite bool_decide_eq_false_2 by (intros ->; simpl in Hrange; lia).
        destruct (oracle _); simpl; intros Hin; by apply elem_of_nil in Hin.
      * simpl. rewrite <- Hlang. apply language_issues_path.
    + intros Hlang. by rewrite Hparse, Hlang.
Qed.

Lemma content_length_validated_witness :
  Analyze.POST (Some (Analyze.mkBody (Analyze.Str "Hey.") (Analyze.Str "en")))
    (fun _ => Analyze.OracleData (Corrections.mk [] english))
  = (Analyze.mkResponse 400 false (Some "Invalid input")
       [Analyze.mkIssue Analyze.too_small ["content"]
          "Content must be at least 5 characters long"] None None, [])
  /\ Analyze.safeParse
       (Analyze.mkBody (Analyze.Str "She dont like apples.") (Analyze.Str "en"))
     = Ok (Analyze.mkData "She dont like apples." (Some "en")).
Proof.
  split.
  - destruct (proj1 (content_length_validated "Hey." (Analyze.Str "en")
        (fun _ => Analyze.OracleData (Corrections.mk [] english))))
      as (issue & issues & Hparse & _ & _ & _ & Hpost).
    + simpl. lia.
    + rewrite Hpost. simpl in Hparse. by injection Hparse as <- <-.
  - apply (proj2 (content_length_validated "She dont like apples." (Analyze.Str "en")
        (fun _ => Analyze.OracleData (Corrections.mk [] english)))).
    + simpl. lia.
    + reflexivity.
Defined.

(** C9.  For a content that passes validation, the language sent to the
    oracle is the submitted one when it is one of en, de, fr, es, it, and
    en when it is any other string or when no language was submitted. *)
Theorem language_coerced (c : string)
    (oracle : Analyze.OracleCall -> Analyze.OracleOutcome) :
  (5 <= String.length c <= 800)%nat ->
  Analyze.supportedLanguages = ["en"; "de"; "fr"; "es"; "it"]
  /\ (forall l, l ∈ Analyze.supportedLanguages ->
        (Analyze.POST (Some (Analyze.mkBody (Analyze.Str c) (Analyze.Str l))) oracle).2
        = [Analyze.mkCall c l])
  /\ (forall l, l ∉ Analyze.supportedLanguages ->
        (Analyze.POST (Some (Analyze.mkBody (Analyze.Str c) (Analyze.Str l))) oracle).2
        = [Analyze.mkCall c "en"])
  /\ (Analyze.POST (Some (Analyze.mkBody (Analyze.Str c) Analyze.Missing)) oracle).2
     = [Analyze.mkCall c "en"].
Proof.
  intros Hrange. split; [done|]. split; [|split].
  - intros l Hin. rewrite (POST_calls_oracle oracle c (Some l) Hrange).
    by rewrite bool_decide_eq_true_2.
  - intros l Hnot. rewrite (POST_calls_oracle oracle c (Some l) Hrange).
    by rewrite bool_decide_eq_false_2.
  - apply (POST_calls_oracle oracle c None Hrange).
Qed.

Lemma language_coerced_witness :
  (Analyze.POST
     (Some (Analyze.mkBody (Analyze.Str "She dont like apples.") (Analyze.Str "pt")))
     (fun _ => Analyze.OracleError None)).2
  = [Analyze.mkCall "She dont like apples." "en"].
Proof.
  apply (proj1 (proj2 (proj2 (language_coerced "She dont like apples."
           (fun _ => Analyze.OracleError None) ltac:(simpl; lia))))).
  compute_done.
Defined.

(** ** A session, end to end

    "She dont like apples." is analysed with one finding; it is classified
    as a correction; the fix turns the content into "She doesn't like
    apples."; classified again, the finding is a suggestion. *)
Example session_end_to_end :
  let st0 := GrammarChecker.mkState "She dont like apples." None false "en" ∅ in
  let st1 := GrammarChecker.handleSubmit (Resolved (analysed [dont])) st0 in
  let st2 := GrammarChecker.handleFix dont "doesn't" st1 in
  GrammarChecker.separateMatches (GrammarChecker.fixedMatches st1) [dont] = ([dont], [])
  /\ GrammarChecker.content st2 = "She doesn't like apples."
  /\ GrammarChecker.separateMatches (GrammarChecker.fixedMatches st2) [dont] = ([], [dont]).
Proof. repeat split. Qed.

(** * Further properties of the code *)

(** ** Word count *)

Section words.

Implicit Types (l : list ascii) (c : ascii).

Lemma trimStart_blank l :
  Forall (fun c => JsText.isWhiteSpace c = true) l -> JsText.trimStart l = [].
Proof. induction 1 as [|c l Hc _ IH]; simpl; [done|]. by rewrite Hc. Qed.

Lemma trimStart_nil_blank l :
  JsText.trimStart l = [] -> Forall (fun c => JsText.isWhiteSpace c = true) l.
Proof.
  induction l as [|c l IH]; simpl; [constructor|].
  destruct (JsText.isWhiteSpace c) eqn:Hc; [|discriminate].
  intros H. constructor; auto.
Qed.

Lemma trimEnd_snoc l c :
  JsText.trimEnd (l ++ [c])
  = if JsText.isWhiteSpace c then JsText.trimEnd l else l ++ [c].
Proof.
  unfold JsText.trimEnd. rewrite reverse_snoc. simpl.
  destruct (JsText.isWhiteSpace c); [done|].
  by rewrite reverse_cons, reverse_involutive.
Qed.

Lemma trimEnd_nil : JsText.trimEnd [] = [].
Proof. reflexivity. Qed.

Lemma wordStarts_snoc_space (afterSpace : bool) l c :
  JsText.isWhiteSpace c = true ->
  wordStarts afterSpace (l ++ [c]) = wordStarts afterSpace l.
Proof.
  intros Hc. revert afterSpace. induction l as [|d l IH]; intros afterSpace; simpl.
  - by rewrite Hc.
  - destruct (JsText.isWhiteSpace d); by rewrite IH.
Qed.

Lemma wordStarts_trimEnd (afterSpace : bool) l :
  wordStarts afterSpace (JsText.trimEnd l) = wordStarts afterSpace l.
Proof.
  induction l as [|c l IH] using rev_ind; [done|].
  rewrite trimEnd_snoc. destruct (JsText.isWhiteSpace c) eqn:Hc; [|done].
  by rewrite IH, wordStarts_snoc_space.
Qed.

Lemma wordStarts_trimStart l :
  wordStarts true (JsText.trimStart l) = wordStarts true l.
Proof.
  induction l as [|c l IH]; simpl; [done|].
  destruct (JsText.isWhiteSpace c) eqn:Hc; [done|]. simpl. by rewrite Hc.
Qed.

Lemma wordStarts_zero l :
  wordStarts true l = 0%nat <-> Forall (fun c => JsText.isWhiteSpace c = true) l.
Proof.
  induction l as [|c l IH]; simpl.
  - split; [constructor|done].
  - destruct (JsText.isWhiteSpace c) eqn:Hc.
    + rewrite IH. split; [by constructor|]. by inversion 1.
    + split; [lia|]. inversion 1; congruence.
Qed.

Lemma trimEnd_endsWord l : JsText.trimEnd l = [] \/ endsWord (JsText.trimEnd l).
Proof.
  induction l as [|c l IH] using rev_ind; [by left|].
  rewrite trimEnd_snoc. destruct (JsText.isWhiteSpace c) eqn:Hc; [done|].
  right. by exists l, c.
Qed.

Lemma trimEnd_cons_word c l :
  JsText.isWhiteSpace c = false -> exists rest, JsText.trimEnd (c :: l) = c :: rest.
Proof.
  intros Hc. induction l as [|d l IH] using rev_ind.
  - exists []. change [c] with ([] ++ [c]). by rewrite trimEnd_snoc, Hc.
  - rewrite app_comm_cons, trimEnd_snoc.
    destruct (JsText.isWhiteSpace d); [done|]. by eexists.
Qed.

Lemma trimStart_head l c rest :
  JsText.trimStart l = c :: rest -> JsText.isWhiteSpace c = false.
Proof.
  induction l as [|d l IH]; simpl; [discriminate|].
  destruct (JsText.isWhiteSpace d) eqn:Hd; [done|]. congruence.
Qed.

Lemma endsWord_cons c d l : endsWord (c :: d :: l) -> endsWord (d :: l).
Proof.
  intros (l' & e & Heq & He). destruct l' as [|x l']; [discriminate|].
  exists l', e. simpl in Heq. split; [congruence|done].
Qed.

Lemma endsWord_single c : endsWord [c] -> JsText.isWhiteSpace c = false.
Proof.
  intros (l' & e & Heq & He).
  destruct l' as [|? [|? ?]]; simpl in Heq; congruence.
Qed.

Lemma endsWord_not_nil : ~ endsWord [].
Proof. intros (l' & e & Heq & _). by destruct l'. Qed.

Lemma split_go_length l :
  endsWord l ->
  forall piece,
    List.length (JsText.split_go false piece l) = S (wordStarts false l)
    /\ List.length (JsText.split_go true piece l) = wordStarts true l.
Proof.
  induction l as [|c l IH]; intros Hend piece.
  - by apply endsWord_not_nil in Hend.
  - destruct l as [|c' l].
    + apply endsWord_single in Hend. simpl. by rewrite Hend.
    + specialize (IH (endsWord_cons _ _ _ Hend)).
      remember (c' :: l) as tl eqn:Htl. simpl.
      destruct (JsText.isWhiteSpace c) eqn:Hc.
      * split.
        -- simpl. by rewrite (proj2 (IH [])).
        -- apply (proj2 (IH piece)).
      * split.
        -- by rewrite (proj1 (IH (piece ++ [c]))).
        -- rewrite (proj1 (IH (piece ++ [c]))). lia.
Qed.

(** [calculateWordCount] counts the starts of words. *)
Lemma calculateWordCount_wordStarts (text : string) :
  calculateWordCount text = wordStarts true (Js.chars text).
Proof.
  unfold calculateWordCount, JsText.trim, JsText.split_whitespace.
  rewrite <- (wordStarts_trimStart (Js.chars text)).
  rewrite <- (wordStarts_trimEnd true (JsText.trimStart (Js.chars text))).
  rewrite chars_of_list.
  destruct (JsText.trimStart (Js.chars text)) as [|c rest] eqn:Hstart.
  - rewrite trimEnd_nil. by rewrite bool_decide_eq_true_2.
  - pose proof (trimStart_head _ _ _ Hstart) as Hc.
    destruct (trimEnd_cons_word c rest Hc) as (rest' & Htrim).
    destruct (trimEnd_endsWord (c :: rest)) as [Hnil|Hend]; [congruence|].
    rewrite Htrim in *.
    rewrite bool_decide_eq_false_2 by done.
    rewrite (proj1 (split_go_length _ Hend [])). simpl. by rewrite Hc.
Qed.

End words.

(** X1.  The word count is zero exactly for the texts that are empty or
    made of white space only. *)
Theorem word_count_zero_iff_blank (text : string) :
  calculateWordCount text = 0%nat
  <-> Forall (fun c => JsText.isWhiteSpace c = true) (Js.chars text).
Proof. rewrite calculateWordCount_wordStarts. apply wordStarts_zero. Qed.

Lemma wordStarts_app_space (afterSpace : bool) (a b : list ascii) (sep : ascii) :
  JsText.isWhiteSpace sep = true ->
  wordStarts afterSpace (a ++ sep :: b)
  = (wordStarts afterSpace a + wordStarts true b)%nat.
Proof.
  intros Hsep. revert afterSpace.
  induction a as [|c a IH]; intros afterSpace; simpl.
  - by rewrite Hsep.
  - destruct (JsText.isWhiteSpace c); rewrite IH; lia.
Qed.

(** X2.  The word count of two texts put together with a white-space
    character between them is the sum of their word counts. *)
Theorem word_count_additive (a b : string) (sep : ascii) :
  JsText.isWhiteSpace sep = true ->
  calculateWordCount (a +:+ String sep b)
  = (calculateWordCount a + calculateWordCount b)%nat.
Proof.
  intros Hsep. rewrite !calculateWordCount_wordStarts, chars_append.
  apply (wordStarts_app_space true _ _ _ Hsep).
Qed.

Lemma word_count_additive_witness :
  calculateWordCount ("She dont" +:+ String " " "like apples.") = 4%nat.
Proof.
  rewrite (word_count_additive "She dont" "like apples." " ").
  - reflexivity.
  - reflexivity.
Defined.

Lemma wordStarts_no_space (l : list ascii) :
  Forall (fun c => JsText.isWhiteSpace c = false) l -> wordStarts false l = 0%nat.
Proof. induction 1 as [|c l Hc _ IH]; simpl; [done|]. by rewrite Hc, IH. Qed.

(** X3.  A text that is not empty and has no white space counts as one
    word. *)
Theorem word_count_single_word (text : string) :
  text <> "" ->
  Forall (fun c => JsText.isWhiteSpace c = false) (Js.chars text) ->
  calculateWordCount text = 1%nat.
Proof.
  intros Hne Hall. rewrite calculateWordCount_wordStarts.
  destruct text as [|c text]; [done|]. simpl in *.
  inversion Hall as [|? ? Hc Hrest]; subst. rewrite Hc.
  by rewrite (wordStarts_no_space _ Hrest).
Qed.

Lemma word_count_single_word_witness : calculateWordCount "apples." = 1%nat.
Proof.
  apply (word_count_single_word "apples.").
  - discriminate.
  - repeat constructor.
Defined.

(** ** Replacements on lists *)

Section splice.

Context {A : Type}.
Implicit Types (c r : list A) (o l : nat).

Lemma splice_length c o l r :
  (o + l <= List.length c)%nat ->
  List.length (splice c o l r) = (List.length c - l + List.length r)%nat.
Proof.
  intros H. unfold splice. rewrite !length_app, length_take, length_drop. lia.
Qed.

Lemma splice_undo c o l r :
  (o + l <= List.length c)%nat ->
  splice (splice c o l r) o (List.length r) (take l (drop o c)) = c.
Proof.
  intros H. unfold splice.
  assert (List.length (take o c) = o) as Ho by (rewrite length_take; lia).
  rewrite take_app_length' by done.
  rewrite drop_app_ge by lia. rewrite Ho.
  replace (o + List.length r - o)%nat with (List.length r) by lia.
  rewrite drop_app_length.
  rewrite <- (take_drop o c) at 4. f_equal.
  rewrite <- (take_drop l (drop o c)) at 2. f_equal.
  rewrite drop_drop. done.
Qed.

Lemma splice_last_first c o1 l1 r1 o2 l2 r2 :
  (o1 + l1 <= o2)%nat -> (o2 <= List.length c)%nat ->
  splice (splice c o2 l2 r2) o1 l1 r1
  = take o1 c ++ r1 ++ take (o2 - (o1 + l1)) (drop (o1 + l1) c)
      ++ r2 ++ drop (o2 + l2) c.
Proof.
  intros H1 H2. unfold splice.
  assert (List.length (take o2 c) = o2) as Ho by (rewrite length_take; lia).
  rewrite take_app_le by lia. rewrite take_take.
  replace (o1 `min` o2)%nat with o1 by lia.
  rewrite drop_app_le by lia.
  rewrite take_drop_commute.
  replace (o1 + l1 + (o2 - (o1 + l1)))%nat with o2 by lia.
  by rewrite <- ?app_assoc.
Qed.

Lemma splice_first_last c o1 l1 r1 p l2 r2 :
  (o1 + l1 <= List.length c)%nat -> (o1 + List.length r1 <= p)%nat ->
  splice (splice c o1 l1 r1) p l2 r2
  = take o1 c ++ r1
      ++ take (p + l1 - List.length r1 - (o1 + l1)) (drop (o1 + l1) c)
      ++ r2 ++ drop (p + l1 - List.length r1 + l2) c.
Proof.
  intros H1 H2. unfold splice.
  assert (List.length (take o1 c) = o1) as Ho by (rewrite length_take; lia).
  rewrite take_app_ge by lia. rewrite Ho.
  rewrite take_app_ge by lia.
  rewrite drop_app_ge by lia. rewrite Ho.
  rewrite drop_app_ge by lia.
  rewrite drop_drop. rewrite <- !app_assoc.
  do 3 f_equal; [f_equal; lia|]. do 2 f_equal. lia.
Qed.

End splice.

(** ** Fixes applied by [handleFix] *)

Section fixes.

Implicit Types (st : GrammarChecker.State) (m : Match.t) (r : string).

Lemma handleFix_chars st m r :
  hasCorrections (GrammarChecker.results st) = true ->
  0 <= Match.offset m -> 0 <= Match.length m ->
  Js.chars (GrammarChecker.content (GrammarChecker.handleFix m r st))
  = splice (Js.chars (GrammarChecker.content st))
      (Z.to_nat (Match.offset m)) (Z.to_nat (Match.length m)) (Js.chars r).
Proof.
  intros Hr Ho Hl.
  rewrite (handleFix_applies (GrammarChecker.content st) r m st eq_refl Hr).
  cbn [GrammarChecker.content]. unfold spec_newContent, splice.
  by rewrite chars_of_list, Z2Nat.inj_add.
Qed.

Lemma handleFix_results st m r :
  hasCorrections (GrammarChecker.results (GrammarChecker.handleFix m r st))
  = hasCorrections (GrammarChecker.results st).
Proof.
  unfold GrammarChecker.handleFix.
  destruct (hasCorrections (GrammarChecker.results st)) eqn:E; simpl; by rewrite ?E.
Qed.

(** [s.substring(a, a + n)] inside the string. *)
Lemma substring_span (s : string) (a n : Z) :
  0 <= a -> 0 <= n -> a + n <= Z.of_nat (String.length s) ->
  Js.chars (Js.substring s a (Some (a + n)))
  = take (Z.to_nat n) (drop (Z.to_nat a) (Js.chars s)).
Proof.
  intros Ha Hn Hlen. unfold Js.substring, Js.clamp. rewrite chars_substring.
  remember (Z.of_nat (String.length s)) as len eqn:Elen.
  replace (Z.min (Z.max 0 (Z.min a len)) (Z.max 0 (Z.min (a + n) len))) with a by lia.
  replace (Z.max (Z.max 0 (Z.min a len)) (Z.max 0 (Z.min (a + n) len))) with (a + n)
    by lia.
  by replace (a + n - a) with n by lia.
Qed.

End fixes.

(** X4.  A fix inside the content changes its length by the length of the
    replacement minus the length of the replaced span. *)
Theorem fix_length (st : GrammarChecker.State) (m : Match.t) (r : string) :
  hasCorrections (GrammarChecker.results st) = true ->
  0 <= Match.offset m -> 0 <= Match.length m ->
  Match.offset m + Match.length m
    <= Z.of_nat (String.length (GrammarChecker.content st)) ->
  Z.of_nat (String.length (GrammarChecker.content (GrammarChecker.handleFix m r st)))
  = Z.of_nat (String.length (GrammarChecker.content st)) - Match.length m
    + Z.of_nat (String.length r).
Proof.
  intros Hr Ho Hl Hrange.
  rewrite <- !chars_length, (handleFix_chars st m r Hr Ho Hl).
  rewrite splice_length; rewrite !chars_length; lia.
Qed.

Lemma fix_length_witness :
  Z.of_nat (String.length
    (GrammarChecker.content
       (GrammarChecker.handleFix quick "slow" (checker "The quick brown fox" [quick] ∅))))
  = 19 - 5 + 4.
Proof.
  apply (fix_length (checker "The quick brown fox" [quick] ∅) quick "slow");
    [reflexivity | simpl; lia ..].
Defined.

(** X5.  A fix inside the content is undone by a second fix at the same
    offset that replaces the inserted text by the text the first one
    removed. *)
Theorem fix_undo (st : GrammarChecker.State) (m : Match.t) (r : string) :
  hasCorrections (GrammarChecker.results st) = true ->
  0 <= Match.offset m -> 0 <= Match.length m ->
  Match.offset m + Match.length m
    <= Z.of_nat (String.length (GrammarChecker.content st)) ->
  let removed :=
    Js.substring (GrammarChecker.content st) (Match.offset m)
      (Some (Match.offset m + Match.length m)) in
  let back :=
    Match.mk (Match.message m) (Match.shortMessage m) (Match.replacements m)
      (Match.offset m) (Z.of_nat (String.length r)) (Match.context m) in
  GrammarChecker.content
    (GrammarChecker.handleFix back removed (GrammarChecker.handleFix m r st))
  = GrammarChecker.content st.
Proof.
  intros Hr Ho Hl Hrange removed back. apply chars_inj.
  rewrite handleFix_chars; [|by rewrite handleFix_results|done|simpl; lia].
  rewrite (handleFix_chars st m r Hr Ho Hl).
  subst removed back. cbn [Match.offset Match.length].
  rewrite substring_span by done.
  rewrite Nat2Z.id, <- chars_length.
  apply splice_undo. rewrite chars_length. lia.
Qed.

Lemma fix_undo_witness :
  GrammarChecker.content
    (GrammarChecker.handleFix
       (Match.mk (Match.message quick) (Match.shortMessage quick)
          (Match.replacements quick) 4 4 (Match.context quick))
       "quick"
       (GrammarChecker.handleFix quick "slow" (checker "The quick brown fox" [quick] ∅)))
  = "The quick brown fox".
Proof.
  apply (fix_undo (checker "The quick brown fox" [quick] ∅) quick "slow");
    [reflexivity | simpl; lia ..].
Defined.

(** X6.  Two fixes on spans that do not overlap, the later span first,
    give the content with both spans replaced. *)
Theorem fixes_last_to_first (st : GrammarChecker.State) (m1 m2 : Match.t)
    (r1 r2 : string) :
  hasCorrections (GrammarChecker.results st) = true ->
  0 <= Match.offset m1 -> 0 <= Match.length m1 ->
  Match.offset m1 + Match.length m1 <= Match.offset m2 ->
  0 <= Match.length m2 ->
  Match.offset m2 <= Z.of_nat (String.length (GrammarChecker.content st)) ->
  GrammarChecker.content
    (GrammarChecker.handleFix m1 r1 (GrammarChecker.handleFix m2 r2 st))
  = replace_both (GrammarChecker.content st)
      (Z.to_nat (Match.offset m1)) (Z.to_nat (Match.length m1)) r1
      (Z.to_nat (Match.offset m2)) (Z.to_nat (Match.length m2)) r2.
Proof.
  intros Hr Ho1 Hl1 Hsep Hl2 Hrange. apply chars_inj.
  rewrite handleFix_chars; [|by rewrite handleFix_results|done|done].
  rewrite (handleFix_chars st m2 r2 Hr) by lia.
  unfold replace_both. rewrite chars_of_list.
  apply splice_last_first; [lia|]. rewrite chars_length. lia.
Qed.

Lemma fixes_last_to_first_witness :
  GrammarChecker.content
    (GrammarChecker.handleFix quick "slow"
       (GrammarChecker.handleFix brown "red"
          (checker "The quick brown fox" [quick; brown] ∅)))
  = "The slow red fox".
Proof.
  apply (fixes_last_to_first (checker "The quick brown fox" [quick; brown] ∅)
           quick brown "slow" "red");
    [reflexivity | simpl; lia ..].
Defined.

(** X7.  Two fixes, the earlier span first: offsets are not adjusted after
    the first fix, so the second fix replaces, in terms of the original
    content, the span that starts at its own offset plus the length of the
    first span minus the length of the first replacement.  That is its own
    span when the first replacement has the length of the span it
    replaces. *)
Theorem fixes_first_to_last (st : GrammarChecker.State) (m1 m2 : Match.t)
    (r1 r2 : string) :
  hasCorrections (GrammarChecker.results st) = true ->
  0 <= Match.offset m1 -> 0 <= Match.length m1 ->
  Match.offset m1 + Match.length m1
    <= Z.of_nat (String.length (GrammarChecker.content st)) ->
  Match.offset m1 + Z.of_nat (String.length r1) <= Match.offset m2 ->
  0 <= Match.length m2 ->
  GrammarChecker.content
    (GrammarChecker.handleFix m2 r2 (GrammarChecker.handleFix m1 r1 st))
  = replace_both (GrammarChecker.content st)
      (Z.to_nat (Match.offset m1)) (Z.to_nat (Match.length m1)) r1
      (Z.to_nat (Match.offset m2 + Match.length m1 - Z.of_nat (String.length r1)))
      (Z.to_nat (Match.length m2)) r2.
Proof.
  intros Hr Ho1 Hl1 Hrange Hsep Hl2. apply chars_inj.
  rewrite handleFix_chars; [|by rewrite handleFix_results|lia|done].
  rewrite (handleFix_chars st m1 r1 Hr) by lia.
  unfold replace_both. rewrite chars_of_list.
  rewrite splice_first_last; rewrite ?chars_length; [|lia|lia].
  do 3 f_equal; [f_equal; lia|]. do 2 f_equal. lia.
Qed.

Lemma fixes_first_to_last_witness :
  GrammarChecker.content
    (GrammarChecker.handleFix brown "red"
       (GrammarChecker.handleFix quick "slow"
          (checker "The quick brown fox" [quick; brown] ∅)))
  = "The slow bredfox".
Proof.
  apply (fixes_first_to_last (checker "The quick brown fox" [quick; brown] ∅)
           quick brown "slow" "red");
    [reflexivity | simpl; lia ..].
Defined.

(** ** Fixes and the tracker *)

(** X8.  A fix on a state with corrections marks the fingerprint of its
    finding resolved and changes the status of no other key; it keeps the
    results, the language and the loading flag. *)
Theorem fix_marks_its_fingerprint_only (st : GrammarChecker.State) (m : Match.t)
    (r : string) :
  hasCorrections (GrammarChecker.results st) = true ->
  let st' := GrammarChecker.handleFix m r st in
  isResolved (GrammarChecker.fixedMatches st') (matchKey m) = true
  /\ (forall key, key <> matchKey m ->
        isResolved (GrammarChecker.fixedMatches st') key
        = isResolved (GrammarChecker.fixedMatches st) key)
  /\ GrammarChecker.results st' = GrammarChecker.results st
  /\ GrammarChecker.language st' = GrammarChecker.language st
  /\ GrammarChecker.loading st' = GrammarChecker.loading st.
Proof.
  intros Hr st'. subst st'.
  rewrite (handleFix_applies (GrammarChecker.content st) r m st eq_refl Hr).
  cbn [GrammarChecker.fixedMatches GrammarChecker.results GrammarChecker.language
       GrammarChecker.loading].
  split; [|split; [|done]].
  - rewrite isResolved_matchKey. apply bool_decide_eq_true_2.
    unfold marked, markResolved. apply lookup_insert_eq.
  - intros key Hne. unfold isResolved, JsObject.get, markResolved.
    by rewrite lookup_insert_ne.
Qed.

Lemma fix_marks_its_fingerprint_only_witness :
  isResolved
    (GrammarChecker.fixedMatches
       (GrammarChecker.handleFix quick "slow"
          (checker "The quick brown fox" [quick; brown] ∅)))
    (matchKey quick) = true.
Proof.
  apply (fix_marks_its_fingerprint_only
           (checker "The quick brown fox" [quick; brown] ∅) quick "slow").
  reflexivity.
Defined.

(** X9.  After a fix, classifying the same findings again gives the former
    corrections without the findings that have the fingerprint of the fixed
    one, in the same order. *)
Theorem corrections_after_fix (st : GrammarChecker.State) (m : Match.t) (r : string)
    (matches : list Match.t) :
  hasCorrections (GrammarChecker.results st) = true ->
  (GrammarChecker.separateMatches
     (GrammarChecker.fixedMatches (GrammarChecker.handleFix m r st)) matches).1
  = filter (fun x => matchKey x <> matchKey m)
      (GrammarChecker.separateMatches (GrammarChecker.fixedMatches st) matches).1.
Proof.
  intros Hr.
  rewrite (handleFix_applies (GrammarChecker.content st) r m st eq_refl Hr).
  cbn [GrammarChecker.fixedMatches]. rewrite !separateMatches_filter. simpl.
  rewrite list_filter_filter. apply list_filter_iff. intros x.
  unfold correction, marked, markResolved.
  destruct (decide (matchKey x = matchKey m)) as [->|Hne].
  - rewrite lookup_insert_eq. tauto.
  - rewrite lookup_insert_ne by done. tauto.
Qed.

Lemma corrections_after_fix_witness :
  (GrammarChecker.separateMatches
     (GrammarChecker.fixedMatches
        (GrammarChecker.handleFix quick "slow"
           (checker "The quick brown fox" [quick; brown] ∅)))
     [quick; brown]).1
  = [brown].
Proof.
  rewrite (corrections_after_fix (checker "The quick brown fox" [quick; brown] ∅)
             quick "slow" [quick; brown]).
  - reflexivity.
  - reflexivity.
Defined.

(** X10.  Every finding shown among the corrections is a finding of the
    input, has exactly one replacement, so that [match.replacements[0]]
    exists, and is not resolved, so that its button is active. *)
Theorem corrections_are_actionable (fixedMatches : gmap string bool)
    (matches : list Match.t) (m : Match.t) :
  m ∈ (GrammarChecker.separateMatches fixedMatches matches).1 ->
  m ∈ matches
  /\ (exists replacement, Match.replacements m = [replacement])
  /\ isResolved fixedMatches (matchKey m) = false.
Proof.
  rewrite separateMatches_filter. simpl. intros Hin.
  apply list_elem_of_filter in Hin as [[Hone Hnot] Hin].
  split; [done|]. split.
  - destruct (Match.replacements m) as [|x [|y rest]]; try discriminate. by exists x.
  - rewrite isResolved_matchKey. by apply bool_decide_eq_false_2.
Qed.

Lemma corrections_are_actionable_witness :
  brown ∈ [quick; brown]
  /\ (exists replacement, Match.replacements brown = [replacement])
  /\ isResolved (markResolved (matchKey quick) ∅) (matchKey brown) = false.
Proof.
  apply (corrections_are_actionable (markResolved (matchKey quick) ∅) [quick; brown] brown).
  change (brown ∈ [brown]). apply list_elem_of_here.
Defined.

(** X11.  Without corrections in the results there is nothing to fix:
    [handleFix] leaves the state as it is when the component has just
    mounted and after a rejected submission, and in [InputContent] after
    every failed submission. *)
Theorem fix_ignored_without_corrections (m : Match.t) (r : string) :
  GrammarChecker.handleFix m r Session.initial = Session.initial
  /\ (forall st,
        GrammarChecker.handleFix m r (GrammarChecker.handleSubmit Rejected st)
        = GrammarChecker.handleSubmit Rejected st)
  /\ (forall st o reachable, failed o ->
        InputContent.handleFix reachable m r (InputContent.onsubmit o st)
        = InputContent.onsubmit o st).
Proof.
  split; [done|]. split; [done|].
  intros st o reachable Hfailed.
  assert (InputContent.results (InputContent.onsubmit o st) = Some failedResults)
    as Hres.
  { destruct o as [data|]; simpl in Hfailed; [|done].
    unfold InputContent.onsubmit, InputContent.onsubmit_settle. by rewrite Hfailed. }
  unfold InputContent.handleFix. by rewrite Hres.
Qed.

Lemma fix_ignored_without_corrections_witness :
  InputContent.handleFix true dont "doesn't"
    (InputContent.onsubmit Rejected (form "She dont like apples." [dont] ∅))
  = InputContent.onsubmit Rejected (form "She dont like apples." [dont] ∅).
Proof.
  apply (proj2 (proj2 (fix_ignored_without_corrections dont "doesn't"))).
  exact I.
Defined.

(** ** The two variants of [handleFix] *)

(** X12.  On states with the same content, the same tracker and
    corrections in the results, the fix computed in the component and the
    fix computed by the route handler give the same content and the same
    tracker; the second also stores the content in the form and ends with
    [loading] off. *)
Theorem local_and_remote_fix_agree (local : GrammarChecker.State)
    (remote : InputContent.State) (m : Match.t) (r : string) :
  hasCorrections (GrammarChecker.results local) = true ->
  hasCorrections (InputContent.results remote) = true ->
  InputContent.content remote = GrammarChecker.content local ->
  InputContent.fixedMatches remote = GrammarChecker.fixedMatches local ->
  let local' := GrammarChecker.handleFix m r local in
  let remote' := InputContent.handleFix true m r remote in
  InputContent.content remote' = GrammarChecker.content local'
  /\ InputContent.fixedMatches remote' = GrammarChecker.fixedMatches local'
  /\ InputContent.formContent remote' = InputContent.content remote'
  /\ InputContent.loading remote' = false.
Proof.
  intros Hl Hr Hc Hf local' remote'. subst local' remote'.
  rewrite (handleFix_applies (GrammarChecker.content local) r m local eq_refl Hl).
  rewrite (remote_handleFix_applies (GrammarChecker.content local) r m remote Hc Hr).
  simpl. by rewrite Hf.
Qed.

Lemma local_and_remote_fix_agree_witness :
  InputContent.content
    (InputContent.handleFix true quick "slow" (form "The quick brown fox" [quick] ∅))
  = GrammarChecker.content
      (GrammarChecker.handleFix quick "slow" (checker "The quick brown fox" [quick] ∅)).
Proof.
  apply (local_and_remote_fix_agree (checker "The quick brown fox" [quick] ∅)
           (form "The quick brown fox" [quick] ∅) quick "slow"); reflexivity.
Defined.

(** X13.  A fix in [InputContent] is all or nothing.  Either the request
    was answered and the results hold corrections: then the content and the
    form hold the new content and the finding is marked resolved.  Or the
    content, the form, the tracker and the results are what they were.  In
    both cases the results are kept, and [loading] is off whenever the
    results hold corrections. *)
Theorem remote_fix_all_or_nothing (reachable : bool) (st : InputContent.State)
    (m : Match.t) (r : string) :
  let st' := InputContent.handleFix reachable m r st in
  let newContent :=
    spec_newContent (InputContent.content st) (Match.offset m) (Match.length m) r in
  InputContent.results st' = InputContent.results st
  /\ (hasCorrections (InputContent.results st) = true -> InputContent.loading st' = false)
  /\ ((reachable = true
       /\ hasCorrections (InputContent.results st) = true
       /\ InputContent.content st' = newContent
       /\ InputContent.formContent st' = newContent
       /\ InputContent.fixedMatches st' = markResolved (matchKey m) (InputContent.fixedMatches st))
      \/ (InputContent.content st' = InputContent.content st
          /\ InputContent.formContent st' = InputContent.formContent st
          /\ InputContent.fixedMatches st' = InputContent.fixedMatches st)).
Proof.
  intros st' newContent. subst st' newContent.
  destruct (hasCorrections (InputContent.results st)) eqn:Hr.
  - destruct reachable.
    + rewrite (remote_handleFix_applies (InputContent.content st) r m st eq_refl Hr).
      cbn. split; [done|]. split; [done|]. by left.
    + unfold InputContent.handleFix. rewrite Hr. cbn.
      split; [done|]. split; [done|]. by right.
  - unfold InputContent.handleFix. rewrite Hr. cbn.
    split; [done|]. split; [discriminate|]. by right.
Qed.

Lemma remote_fix_all_or_nothing_witness :
  InputContent.loading
    (InputContent.handleFix false quick "slow" (form "The quick brown fox" [quick] ∅))
  = false.
Proof.
  apply (proj1 (proj2 (remote_fix_all_or_nothing false
           (form "The quick brown fox" [quick] ∅) quick "slow"))).
  reflexivity.
Defined.

(** ** Answers of the fix-application endpoint *)

(** X14.  The route handler answers 200 exactly when the body has a
    [match] and a string [content], and 500 otherwise; the answer carries
    [newContent] in the first case and the error in the second, never
    both. *)
Theorem insert_keyword_answers (req : option InsertKeyword.Body) :
  let answer := InsertKeyword.POST req in
  (InsertKeyword.status answer = 200
   <-> exists m r c, req = Some (InsertKeyword.mkBody (Some m) r (Some c)))
  /\ (InsertKeyword.status answer = 200 \/ InsertKeyword.status answer = 500)
  /\ (is_Some (InsertKeyword.newContent answer) <-> InsertKeyword.status answer = 200)
  /\ (is_Some (InsertKeyword.error answer) <-> InsertKeyword.status answer = 500).
Proof.
  destruct req as [[[m|] r [c|]]|]; cbn.
  all: repeat split; try (intros; by eauto); try (by intros [? ?]);
    try (intros (? & ? & ? & ?); discriminate); try discriminate; auto.
Qed.

(** ** The analysis endpoint *)

Section analysis.

Variable oracle : Analyze.OracleCall -> Analyze.OracleOutcome.

Lemma safeParse_Ok_inv (body : Analyze.Body) (data : Analyze.Data) :
  Analyze.safeParse body = Ok data ->
  exists s,
    Analyze.content body = Analyze.Str s
    /\ (5 <= String.length s <= 800)%nat
    /\ Analyze.language_issues (Analyze.language body) = []
    /\ data = Analyze.mkData s
                match Analyze.language body with Analyze.Str l => Some l | _ => None end.
Proof.
  unfold Analyze.safeParse. destruct body as [content language]. simpl.
  destruct content as [|received|s]; simpl; try discriminate.
  destruct (Nat.ltb_spec (String.length s) 5); [discriminate|].
  destruct (Nat.ltb_spec 800 (String.length s)); [discriminate|]. simpl.
  destruct (Analyze.language_issues language) eqn:Hlang; [|discriminate].
  intros [= <-]. exists s. repeat split; try done; lia.
Qed.

Lemma safeParse_Err_nonempty (body : Analyze.Body) (issues : list Analyze.ZodIssue) :
  Analyze.safeParse body = Err issues -> issues <> [].
Proof.
  unfold Analyze.safeParse. destruct body as [content language]. simpl.
  destruct content as [|received|s]; simpl; try (intros [= <-]; discriminate).
  destruct (Nat.ltb_spec (String.length s) 5);
    destruct (Nat.ltb_spec 800 (String.length s)); simpl;
    try (intros [= <-]; discriminate).
  destruct (Analyze.language_issues language); [discriminate|].
  intros [= <-]. discriminate.
Qed.

(** The handler, case by case. *)
Lemma POST_cases (req : option Analyze.Body) :
  (req = None /\ Analyze.POST req oracle = (Analyze.catch_block None, []))
  \/ (exists body issues,
        req = Some body /\ Analyze.safeParse body = Err issues
        /\ Analyze.POST req oracle
           = (Analyze.mkResponse 400 false (Some "Invalid input") issues None None, []))
  \/ (exists body data lang,
        req = Some body /\ Analyze.safeParse body = Ok data
        /\ lang ∈ Analyze.supportedLanguages
        /\ Analyze.POST req oracle
           = (match oracle (Analyze.mkCall (Analyze.data_content data) lang) with
              | Analyze.OracleData d =>
                  Analyze.mkResponse 200 true (Some "Content analyzed successfully") []
                    (Some d) None
              | Analyze.OracleError response => Analyze.catch_block response
              end,
              [Analyze.mkCall (Analyze.data_content data) lang])).
Proof.
  destruct req as [body|]; [|by left]. right.
  destruct (Analyze.safeParse body) as [data|issues] eqn:Hparse.
  - right.
    exists body, data,
      (if bool_decide (default "en" (Analyze.data_language data) ∈ Analyze.supportedLanguages)
       then default "en" (Analyze.data_language data) else "en").
    split; [done|]. split; [done|]. split.
    + case_bool_decide as Hin; [done|]. by left.
    + destruct (safeParse_Ok_inv body data Hparse) as (s & _ & Hrange & _ & ->).
      unfold Analyze.POST. rewrite Hparse. cbn [Analyze.data_content Analyze.data_language].
      rewrite bool_decide_eq_false_2 by (intros ->; simpl in Hrange; lia).
      by destruct (oracle _).
  - left. exists body, issues. split; [done|]. split; [done|].
    unfold Analyze.POST. by rewrite Hparse.
Qed.

Lemma catch_block_shape (response : option (Z * option string)) :
  Analyze.success (Analyze.catch_block response) = false
  /\ Analyze.errors (Analyze.catch_block response) = []
  /\ Analyze.corrections (Analyze.catch_block response) = None
  /\ Analyze.message (Analyze.catch_block response) = None
  /\ Analyze.status (Analyze.catch_block response) <> 0
  /\ exists msg, Analyze.error (Analyze.catch_block response) = Some msg /\ msg <> "".
Proof.
  unfold Analyze.catch_block. simpl. repeat split.
  - destruct response as [[st ?]|]; [|done].
    destruct (Z.eqb_spec st 0); [done|done].
  - destruct response as [[st [msg|]]|]; try (by eexists).
    case_bool_decide; by eexists.
Qed.

End analysis.

(** X15.  The handler calls the oracle at most once, and only with a text
    of 5 to 800 characters, which is the submitted content, and with one of
    the supported languages. *)
Theorem oracle_calls_are_valid (req : option Analyze.Body)
    (oracle : Analyze.OracleCall -> Analyze.OracleOutcome) (call : Analyze.OracleCall) :
  call ∈ (Analyze.POST req oracle).2 ->
  (Analyze.POST req oracle).2 = [call]
  /\ (5 <= String.length (Analyze.call_text call) <= 800)%nat
  /\ Analyze.call_language call ∈ Analyze.supportedLanguages
  /\ exists language,
       req = Some (Analyze.mkBody (Analyze.Str (Analyze.call_text call)) language).
Proof.
  destruct (POST_cases oracle req)
    as [[-> ->]|[(body & issues & -> & _ & ->)|(body & data & lang & -> & Hparse & Hlang & ->)]];
    simpl; intros Hin; try by apply elem_of_nil in Hin.
  apply list_elem_of_singleton in Hin as ->. simpl.
  destruct (safeParse_Ok_inv body data Hparse) as (s & Hc & Hrange & _ & ->).
  simpl. repeat split; try done; try lia.
  destruct body as [content language]. simpl in Hc. subst. by eexists.
Qed.

Lemma oracle_calls_are_valid_witness :
  (5 <= String.length "She dont like apples." <= 800)%nat
  /\ "en" ∈ Analyze.supportedLanguages.
Proof.
  destruct (oracle_calls_are_valid
              (Some (Analyze.mkBody (Analyze.Str "She dont like apples.") (Analyze.Str "pt")))
              (fun _ => Analyze.OracleError None)
              (Analyze.mkCall "She dont like apples." "en"))
    as (_ & Hrange & Hlang & _).
  - apply list_elem_of_here.
  - split; [exact Hrange | exact Hlang].
Defined.

(** X16.  The handler answers [success: true] exactly when the body passes
    validation and the oracle returns data; the answer then has status 200
    and carries that data. *)
Theorem analyze_success (req : option Analyze.Body)
    (oracle : Analyze.OracleCall -> Analyze.OracleOutcome) :
  Analyze.success (Analyze.POST req oracle).1 = true
  <-> exists call data,
        (Analyze.POST req oracle).2 = [call]
        /\ oracle call = Analyze.OracleData data
        /\ (Analyze.POST req oracle).1
           = Analyze.mkResponse 200 true (Some "Content analyzed successfully") []
               (Some data) None.
Proof.
  split.
  - destruct (POST_cases oracle req)
      as [[-> ->]|[(body & issues & -> & _ & ->)|(body & data & lang & -> & _ & _ & ->)]];
      cbn [fst snd].
    + by rewrite (proj1 (catch_block_shape None)).
    + discriminate.
    + destruct (oracle _) as [d|response] eqn:Horacle.
      * intros _. by eexists _, d.
      * by rewrite (proj1 (catch_block_shape response)).
  - intros (call & data & _ & _ & ->). reflexivity.
Qed.

(** X17.  An answer with [success: false] is either the refusal of an
    invalid body, with status 400, the message "Invalid input", at least
    one issue and no call to the oracle, or the report of a caught error,
    with a status that is not 0 and an error text that is not empty.  The
    answer "Content is required and must be a string." is never given. *)
Theorem analyze_failure (req : option Analyze.Body)
    (oracle : Analyze.OracleCall -> Analyze.OracleOutcome) :
  let answer := (Analyze.POST req oracle).1 in
  (Analyze.success answer = false ->
     (Analyze.status answer = 400
      /\ Analyze.message answer = Some "Invalid input"
      /\ Analyze.errors answer <> []
      /\ Analyze.error answer = None
      /\ (Analyze.POST req oracle).2 = [])
     \/ (Analyze.status answer <> 0
         /\ Analyze.message answer = None
         /\ Analyze.errors answer = []
         /\ exists msg, Analyze.error answer = Some msg /\ msg <> ""))
  /\ Analyze.message answer <> Some "Content is required and must be a string.".
Proof.
  destruct (POST_cases oracle req)
    as [[-> ->]|[(body & issues & -> & Hparse & ->)|(body & data & lang & -> & _ & _ & ->)]];
    cbn [fst snd].
  - destruct (catch_block_shape None) as (_ & He & _ & Hm & Hs & Hmsg).
    split; [intros _; right; by repeat split|]. by rewrite Hm.
  - split; [|discriminate]. intros _. left. simpl.
    repeat split; try done. by apply (safeParse_Err_nonempty body).
  - destruct (oracle _) as [d|response]; [split; discriminate|].
    destruct (catch_block_shape response) as (_ & He & _ & Hm & Hs & Hmsg).
    split; [intros _; right; by repeat split|]. by rewrite Hm.
Qed.

Lemma analyze_failure_witness :
  exists msg,
    Analyze.error
      (Analyze.POST
         (Some (Analyze.mkBody (Analyze.Str "She dont like apples.") Analyze.Missing))
         (fun _ => Analyze.OracleError (Some (0, Some "")))).1 = Some msg.
Proof.
  destruct (proj1 (analyze_failure
      (Some (Analyze.mkBody (Analyze.Str "She dont like apples.") Analyze.Missing))
      (fun _ => Analyze.OracleError (Some (0, Some "")))) eq_refl)
    as [(Hs & _)|(_ & _ & _ & msg & Hmsg & _)].
  - discriminate Hs.
  - exists msg. exact Hmsg.
Defined.

(** X18.  The schema accepts a body exactly when its content is a string of
    5 to 800 characters and its language is absent or a string; the parsed
    data are that content and that language. *)
Theorem safeParse_accepts (body : Analyze.Body) (data : Analyze.Data) :
  Analyze.safeParse body = Ok data
  <-> exists s,
        Analyze.content body = Analyze.Str s
        /\ (5 <= String.length s <= 800)%nat
        /\ ((Analyze.language body = Analyze.Missing /\ data = Analyze.mkData s None)
            \/ exists l, Analyze.language body = Analyze.Str l
                         /\ data = Analyze.mkData s (Some l)).
Proof.
  split.
  - intros Hparse.
    destruct (safeParse_Ok_inv body data Hparse) as (s & Hc & Hrange & Hlang & ->).
    exists s. split; [done|]. split; [done|].
    destruct (Analyze.language body) as [|received|l]; [by left|discriminate|right; by eexists].
  - intros (s & Hc & Hrange & Hlang). destruct body as [content language].
    simpl in *. subst content. unfold Analyze.safeParse. simpl.
    destruct (Nat.ltb_spec (String.length s) 5); [lia|].
    destruct (Nat.ltb_spec 800 (String.length s)); [lia|]. simpl.
    destruct Hlang as [[-> ->]|(l & -> & ->)]; reflexivity.
Qed.

(** X19.  Every language the two components offer is a supported language
    and every supported language is offered; so a language chosen in either
    component reaches the oracle as it is, for a content that passes
    validation. *)
Theorem offered_languages_reach_oracle (l c : string)
    (oracle : Analyze.OracleCall -> Analyze.OracleOutcome) :
  (l ∈ LANGUAGES.*2 <-> l ∈ Analyze.supportedLanguages)
  /\ (l ∈ selectOptions.*1 <-> l ∈ Analyze.supportedLanguages)
  /\ (l ∈ LANGUAGES.*2 \/ l ∈ selectOptions.*1 ->
      (5 <= String.length c <= 800)%nat ->
      (Analyze.POST (Some (Analyze.mkBody (Analyze.Str c) (Analyze.Str l))) oracle).2
      = [Analyze.mkCall c l]).
Proof.
  assert (l ∈ LANGUAGES.*2 <-> l ∈ Analyze.supportedLanguages) as H1.
  { unfold LANGUAGES, Analyze.supportedLanguages. simpl.
    rewrite !elem_of_cons, !elem_of_nil. tauto. }
  assert (l ∈ selectOptions.*1 <-> l ∈ Analyze.supportedLanguages) as H2.
  { unfold selectOptions, Analyze.supportedLanguages. simpl.
    rewrite !elem_of_cons, !elem_of_nil. tauto. }
  split; [done|]. split; [done|].
  intros Hin Hrange.
  assert (l ∈ Analyze.supportedLanguages) as Hsup by tauto.
  rewrite (POST_calls_oracle oracle c (Some l) Hrange).
  by rewrite bool_decide_eq_true_2.
Qed.

Lemma offered_languages_reach_oracle_witness :
  (Analyze.POST
     (Some (Analyze.mkBody (Analyze.Str "Sie mag keine Apfel.") (Analyze.Str "de")))
     (fun _ => Analyze.OracleError None)).2
  = [Analyze.mkCall "Sie mag keine Apfel." "de"].
Proof.
  apply (proj2 (proj2 (offered_languages_reach_oracle "de" "Sie mag keine Apfel."
           (fun _ => Analyze.OracleError None)))).
  - left. compute_done.
  - simpl. lia.
Defined.

(** ** Outcome of the sentence grouper *)

(** X20.  [groupMatchesBySentence] throws when the context string of some
    finding is the name of a property of [Object.prototype].  Otherwise it
    returns a map in which a sentence has a group exactly when some finding
    has it as context string; that group is made of the findings with that
    context string, in the order of the input, and every finding is in the
    group of its context string. *)
Theorem grouping_outcome (matches : list Match.t) :
  (Exists namesPrototypeProperty matches ->
     GrammarChecker.groupMatchesBySentence matches = Err Js.TypeError)
  /\ (Forall (fun m => ~ namesPrototypeProperty m) matches ->
      exists result,
        GrammarChecker.groupMatchesBySentence matches = Ok result
        /\ (forall sentence group,
              result !! sentence = Some group
              <-> group <> [] /\ group = sharing sentence matches)
        /\ (forall m, m ∈ matches ->
              exists group,
                result !! Context.text (Match.context m) = Some group /\ m ∈ group)).
Proof.
  split.
  - intros Hex. apply forEach_group_inherited; [intros k _; apply lookup_empty|done].
  - intros Hall.
    destruct (groupMatchesBySentence_plain matches) as (result & Hrun & Hres).
    { eapply Forall_impl; [exact Hall|]. intros m Hm. unfold namesPrototypeProperty in Hm.
      by destruct (JsObject.inherited (Context.text (Match.context m))). }
    exists result. split; [done|]. split.
    + intros sentence group. rewrite Hres.
      destruct (sharing sentence matches) as [|x xs] eqn:Hs.
      * split; [discriminate|]. intros [Hne ->]. done.
      * split; [intros [= <-]; done|]. intros [_ ->]. done.
    + intros m Hin. exists (sharing (Context.text (Match.context m)) matches).
      assert (m ∈ sharing (Context.text (Match.context m)) matches) as Hm.
      { unfold sharing. apply list_elem_of_filter. by split. }
      split; [|done]. rewrite Hres.
      destruct (sharing (Context.text (Match.context m)) matches); [|done].
      by apply elem_of_nil in Hm.
Qed.

Lemma grouping_outcome_witness :
  exists result,
    GrammarChecker.groupMatchesBySentence [quick; dont; brown] = Ok result
    /\ result !! "The quick brown fox" = Some [quick; brown].
Proof.
  destruct (proj2 (grouping_outcome [quick; dont; brown])) as (result & Hrun & Hres & _).
  - repeat constructor; unfold namesPrototypeProperty; simpl; discriminate.
  - exists result. split; [exact Hrun|]. apply Hres. split; [discriminate|reflexivity].
Defined.

(** ** Sessions *)

Section sessions.




End sessions.


(** ** Readability levels *)

Section readability.

Import Readability.

Lemma ge_monotone (x y : number) (k : Z) :
  le x y -> ge x k = true -> ge y k = true.
Proof.
  destruct x as [|[|]|p], y as [|[|]|q]; simpl; try done.
  intros Hle Hk. apply Qle_bool_iff. apply Qle_bool_iff in Hk.
  by apply (Qle_trans _ p).
Qed.

End readability.

(** X22.  The readability level never gets harder when the score grows:
    for scores [x <= y], each has one of the seven levels and the level of
    [y] is at least as easy as the level of [x]. *)
Theorem readability_monotone (x y : Readability.number) :
  Readability.le x y ->
  exists i j,
    Readability.ease x = Some i /\ Readability.ease y = Some j /\ (i <= j)%nat.
Proof.
  intros Hle.
  pose proof (fun k => ge_monotone x y k Hle) as Hmono.
  unfold Readability.ease, Readability.getReadabilityLevel.
  destruct (Readability.ge x 90) eqn:E90; [rewrite (Hmono _ E90)|];
  [|destruct (Readability.ge x 80) eqn:E80; [rewrite (Hmono _ E80)|];
  [|destruct (Readability.ge x 70) eqn:E70; [rewrite (Hmono _ E70)|];
  [|destruct (Readability.ge x 60) eqn:E60; [rewrite (Hmono _ E60)|];
  [|destruct (Readability.ge x 50) eqn:E50; [rewrite (Hmono _ E50)|];
  [|destruct (Readability.ge x 30) eqn:E30; [rewrite (Hmono _ E30)|]]]]]].
  all: repeat match goal with
       | |- context [Readability.ge ?z ?k] => destruct (Readability.ge z k)
       end.
  all: eexists _, _; split; [reflexivity|]; split; [reflexivity|]; lia.
Qed.

Lemma readability_monotone_witness :
  exists i j,
    Readability.ease (Readability.Finite (595 # 10)) = Some i
    /\ Readability.ease (Readability.Finite (60 # 1)) = Some j /\ (i <= j)%nat.
Proof.
  apply (readability_monotone (Readability.Finite (595 # 10)) (Readability.Finite (60 # 1))).
  simpl. unfold Qle. simpl. lia.
Defined.

(** ** Syllables *)

Section syllables.

Import Syllables.

Implicit Types (w : list ascii).

Lemma vowels_app w1 w2 : vowels (w1 ++ w2) = (vowels w1 + vowels w2)%nat.
Proof. unfold vowels. by rewrite filter_app, length_app. Qed.

Lemma vowels_cons c w :
  vowels (c :: w) = ((if isVowel c then 1 else 0) + vowels w)%nat.
Proof.
  unfold vowels. rewrite filter_cons.
  destruct (isVowel c) eqn:Hc.
  - by rewrite decide_True.
  - by rewrite decide_False.
Qed.

Lemma dropEnding_prefix w : exists ending, w = dropEnding w ++ ending.
Proof.
  unfold dropEnding.
  destruct (reverse w) as [|e [|x rest]] eqn:Hrev;
    try (exists []; by rewrite app_nil_r).
  assert (w = reverse rest ++ [x; e]) as Hw.
  { rewrite <- (reverse_involutive w), Hrev, !reverse_cons, <- app_assoc. done. }
  destruct (bool_decide (e = "s"%char)).
  - destruct rest as [|y rest']; [exists []; by rewrite app_nil_r|].
    destruct (bool_decide (x = "e"%char) && notSoft y).
    + exists [y; x; e]. by rewrite Hw, reverse_cons, <- app_assoc.
    + exists []. by rewrite app_nil_r.
  - destruct (bool_decide (e = "d"%char) && bool_decide (x = "e"%char));
      [by exists [x; e]|].
    destruct (bool_decide (e = "e"%char) && notSoft x); [by exists [x; e]|].
    exists []. by rewrite app_nil_r.
Qed.

Lemma dropLeadingY_suffix w : exists start, w = start ++ dropLeadingY w.
Proof.
  destruct w as [|c w]; simpl; [by exists []|].
  case_bool_decide; [by exists [c]|by exists []].
Qed.

Lemma vowelGroups_le_vowels w : (vowelGroups w <= vowels w)%nat.
Proof.
  remember (List.length w) as n eqn:Hn. revert w Hn.
  induction n as [n IH] using lt_wf_ind. intros w Hn.
  destruct w as [|c [|d w]].
  - done.
  - simpl. rewrite vowels_cons. destruct (isVowel c); simpl; lia.
  - change (vowelGroups (c :: d :: w))
      with (if isVowel c
            then if isVowel d then S (vowelGroups w) else S (vowelGroups (d :: w))
            else vowelGroups (d :: w)).
    rewrite (vowels_cons c). 
    pose proof (IH (List.length (d :: w)) ltac:(subst n; simpl; lia) (d :: w) eq_refl) as H1.
    pose proof (IH (List.length w) ltac:(subst n; simpl; lia) w eq_refl) as H2.
    rewrite (vowels_cons d) in *.
    destruct (isVowel c), (isVowel d); simpl in *; lia.
Qed.

End syllables.

(** X23.  A word counts at least one syllable and, when it has vowels (a,
    e, i, o, u, y in either case), at most as many syllables as vowels. *)
Theorem syllable_bounds (word : string) :
  (1 <= Syllables.countSyllables word
     <= Nat.max 1 (Syllables.vowels (Syllables.toLowerCase (Js.chars word))))%nat.
Proof.
  unfold Syllables.countSyllables.
  set (w := Syllables.toLowerCase (Js.chars word)).
  destruct (dropEnding_prefix w) as (ending & Hending).
  destruct (dropLeadingY_suffix (Syllables.dropEnding w)) as (start & Hstart).
  pose proof (vowelGroups_le_vowels (Syllables.dropLeadingY (Syllables.dropEnding w)))
    as Hle.
  assert (Syllables.vowels (Syllables.dropLeadingY (Syllables.dropEnding w))
          <= Syllables.vowels w)%nat as Hsub.
  { rewrite Hending at 2. rewrite Hstart at 2. rewrite !vowels_app. lia. }
  destruct (Nat.eqb_spec
    (Syllables.vowelGroups (Syllables.dropLeadingY (Syllables.dropEnding w))) 0); lia.
Qed.
